(** * news-search: query building, search orchestration and text formatting

    A shallow embedding of [src/search.ts] (query builders and [searchNews])
    and of the two pure helpers of [src/format.ts] ([timeAgo], [wordWrap]).

    Conventions of the embedding.
    - A JavaScript string is a Rocq [string]; every [ascii] stands for one
      UTF-16 code unit in the range 0..255, so [String.length] is [.length].
    - A JavaScript number that the program only uses as an integer (counters,
      millisecond time values, column widths) is a [Z]; [NaN] is made explicit
      with [option] where the program can meet it (time values).
    - [try]/[catch], the arrays the program pushes to and the calls it makes
      to the API client are threaded through a small state-and-exception
      monad, [M]. *)

From Stdlib Require Import ZArith List String Ascii Bool Lia Permutation Sorted.
From stdpp Require Import base strings gmap pretty.
Import ListNotations.

Local Open Scope Z_scope.

(** ** JavaScript built-ins used by the program *)

Module JS.

(** [Array.prototype.join] on an array of strings. *)
Fixpoint join (sep : string) (l : list string) : string :=
  match l with
  | [] => ""
  | x :: tl =>
      match tl with
      | [] => x
      | _ :: _ => x +:+ sep +:+ join sep tl
      end
  end.

(** [String(n)] and the rendering of [${n}] for an integer-valued number. *)
Definition string_of_int (n : Z) : string := pretty n.

(** Number of occurrences of the code unit [c] in [s]. *)
Fixpoint count_char (c : ascii) (s : string) : nat :=
  match s with
  | EmptyString => 0%nat
  | String d s' => ((if Ascii.eqb c d then 1 else 0) + count_char c s')%nat
  end.

(** The code units below 256 that the regular expression class [\s]
    matches: tab, line feed, vertical tab, form feed, carriage return, space
    and no-break space. *)
Definition is_space (c : ascii) : bool :=
  let n := nat_of_ascii c in
  ((9 <=? n) && (n <=? 13) || (n =? 32) || (n =? 160))%nat.

(** [s.split(/\s+/)]: the pieces between maximal runs of white space.  A
    leading or trailing run leaves an empty first or last piece, and the empty
    string splits into one empty piece.  [in_run] tells that the previous code
    unit was white space; [piece] is the piece read so far. *)
Fixpoint split_from (in_run : bool) (piece : string) (s : string) : list string :=
  match s with
  | EmptyString => [piece]
  | String c s' =>
      if is_space c
      then if in_run then split_from true "" s'
           else piece :: split_from true "" s'
      else split_from false (piece +:+ String c "") s'
  end.

Definition split_whitespace (s : string) : list string := split_from false "" s.

End JS.

(** ** Dates

    A [Date] object is its time value: milliseconds since the epoch, or
    [None] for the invalid date ([NaN]).  The host time zone is taken to be
    UTC, so local and UTC calendar fields coincide. *)

Module Date.

Definition msPerDay : Z := 86400000.
Definition maxTimeValue : Z := 8640000000000000.

(** ECMAScript [TimeClip] on an integer. *)
Definition TimeClip (t : Z) : option Z :=
  if Z.abs t <=? maxTimeValue then Some t else None.

(** [d.setDate(d.getDate() - n)] moves the time value back by [n] days. *)
Definition minusDays (t : Z) (n : Z) : option Z := TimeClip (t - n * msPerDay).

(** Proleptic Gregorian date (year, month 1..12, day 1..31) of a day number
    counted from 1970-01-01. *)
Definition civil (day : Z) : Z * Z * Z :=
  let z := day + 719468 in
  let era := z / 146097 in
  let doe := z - era * 146097 in
  let yoe := (doe - doe / 1460 + doe / 36524 - doe / 146096) / 365 in
  let doy := doe - (365 * yoe + yoe / 4 - yoe / 100) in
  let mp := (5 * doy + 2) / 153 in
  let d := doy - (153 * mp + 2) / 5 + 1 in
  let m := if mp <? 10 then mp + 3 else mp - 9 in
  let y := yoe + era * 400 + (if m <=? 2 then 1 else 0) in
  (y, m, d).

Fixpoint zeros (n : nat) : string :=
  match n with O => "" | S n' => String "0" (zeros n') end.

(** Decimal rendering of [n >= 0], left-padded with zeros to [w] digits. *)
Definition pad (w : nat) (n : Z) : string :=
  let s := JS.string_of_int n in
  zeros (w - String.length s) +:+ s.

Definition year_string (y : Z) : string :=
  if (0 <=? y) && (y <=? 9999) then pad 4 y
  else if y <? 0 then "-" +:+ pad 6 (- y)
  else "+" +:+ pad 6 y.

(** The text [toISOString] produces for a valid time value. *)
Definition iso (t : Z) : string :=
  let '(y, m, d) := civil (t / msPerDay) in
  let r := t mod msPerDay in
  year_string y +:+ "-" +:+ pad 2 m +:+ "-" +:+ pad 2 d +:+ "T"
    +:+ pad 2 (r / 3600000) +:+ ":" +:+ pad 2 (r / 60000 mod 60) +:+ ":"
    +:+ pad 2 (r / 1000 mod 60) +:+ "." +:+ pad 3 (r mod 1000) +:+ "Z".

End Date.

(** What the program can find in a [catch]: an [Error] object, as the SDK
    and the built-ins throw, or a primitive value. *)
Inductive Thrown :=
| ErrorObject (name message : string)
| ThrownString (s : string)
| ThrownNumber (n : Z)
| ThrownNull
| ThrownUndefined.

(** [err?.message ?? String(err)] *)
Definition err_message (err : Thrown) : string :=
  match err with
  | ErrorObject _ message => message
  | ThrownString s => s
  | ThrownNumber n => JS.string_of_int n
  | ThrownNull => "null"
  | ThrownUndefined => "undefined"
  end.

Inductive Result (A : Type) :=
| Ok (a : A)
| Raise (err : Thrown).
Arguments Ok {A} a.
Arguments Raise {A} err.

(** [Date.prototype.toISOString]: a [RangeError] on the invalid date. *)
Definition toISOString (tv : option Z) : Result string :=
  match tv with
  | Some t =>
      match Date.TimeClip t with
      | Some t' => Ok (Date.iso t')
      | None => Raise (ErrorObject "RangeError" "Invalid time value")
      end
  | None => Raise (ErrorObject "RangeError" "Invalid time value")
  end.

(** The parts of the JavaScript host whose result the program takes as it
    comes.  [Date_parse s] is the time value of [new Date(s)] and
    [Date_ofNumeric s] the time value of [new Date(Number(s))]; [None] is the
    invalid date. *)
Record Host := {
  Date_parse : string -> option Z;
  Date_ofNumeric : string -> option Z;
}.

(** ** Types of [search.ts] *)

Module SearchParams.
Record t := {
  queries : list string;
  days : Z;
  max : Z;
  lang : string;
  raw : bool;
  posts : bool;
}.
End SearchParams.

Module NewsResult.
Record t := {
  id : string;
  headline : string;
  summary : string;
  hook : string;
  category : string;
  keywords : list string;
  updatedAt : string;
}.
End NewsResult.

Module PostResult.
Record t := {
  id : string;
  text : string;
  authorId : string;
  authorName : string;
  authorUsername : string;
  verified : bool;
  createdAt : string;
  likes : Z;
  reposts : Z;
  replies : Z;
  url : string;
}.
End PostResult.

Module SearchOutput.
Record t := {
  query : string;
  news : list NewsResult.t;
  posts : list PostResult.t;
  errors : list string;
}.
End SearchOutput.

(** ** The API client

    Records of the SDK as the program reads them: an optional property is an
    [option], [None] standing for [undefined].  An error payload is kept as
    the text [JSON.stringify] gives for it. *)

Definition Problem := string.
Definition JSON_stringify (err : Problem) : string := err.

Module News.
Record t := {
  restId : option string;
  name : option string;
  summary : option string;
  hook : option string;
  category : option string;
  keywords : option (list string);
  lastUpdatedAtMs : option string;
}.
End News.

Module User.
Record t := {
  id : string;
  name : string;
  username : string;
  verified : option bool;
}.
End User.

Module Metrics.
Record t := {
  like_count : option Z;
  retweet_count : option Z;
  reply_count : option Z;
}.
End Metrics.

Module Tweet.
Record t := {
  id : option string;
  text : option string;
  authorId : option string;
  createdAt : option string;
  publicMetrics : option Metrics.t;
}.
End Tweet.

Module NewsResponse.
Record t := {
  data : option (list News.t);
  errors : option (list Problem);
}.
End NewsResponse.

Module Includes.
Record t := { users : option (list User.t) }.
End Includes.

Module PostResponse.
Record t := {
  data : option (list Tweet.t);
  includes : option Includes.t;
  errors : option (list Problem);
}.
End PostResponse.

Module NewsOptions.
Record t := { maxResults : Z; maxAgeHours : Z }.
End NewsOptions.

Module PostOptions.
Record t := {
  startTime : string;
  maxResults : Z;
  sortOrder : string;
  tweetFields : list string;
  userFields : list string;
  expansions : list string;
}.
End PostOptions.

(** An awaited call either yields its response or throws. *)
Inductive Outcome (A : Type) :=
| Returns (response : A)
| Throws (err : Thrown).
Arguments Returns {A} response.
Arguments Throws {A} err.

Record Client := {
  news_search : string -> NewsOptions.t -> Outcome NewsResponse.t;
  posts_searchRecent : string -> PostOptions.t -> Outcome PostResponse.t;
}.

(** The calls made to the client, in order. *)
Inductive Call :=
| NewsSearch (query : string) (options : NewsOptions.t)
| PostsSearchRecent (query : string) (options : PostOptions.t).

(** ** Query builder *)

(** The term expression [combined] that [buildPostQuery] computes first. *)
Definition combined (queries : list string) : string :=
  if (length queries =? 1)%nat
  then hd "" queries
  else JS.join " OR " (map (fun q => "(" +:+ q +:+ ")") queries).

Definition filters (lang : string) : list string :=
  [ "-is:retweet"; "-is:reply"; "has:links"; "-is:nullcast"; "lang:" +:+ lang ].

Definition buildPostQuery (queries : list string) (lang : string) (raw : bool)
  : string :=
  if raw then combined queries
  else combined queries +:+ " " +:+ JS.join " " (filters lang).

Definition buildNewsQuery (queries : list string) : string :=
  JS.join " OR " queries.

(** ** [Array.prototype.sort]

    The sort is stable and the comparator's sign decides the order: [x] stays
    in front of [y] unless [cmp x y > 0].  An insertion sort that puts every
    element before the first later element it does not have to follow
    computes that stable order. *)

Module Array.

Fixpoint insert {A : Type} (cmp : A -> A -> Z) (x : A) (l : list A) : list A :=
  match l with
  | [] => [x]
  | y :: l' => if cmp x y <=? 0 then x :: y :: l' else y :: insert cmp x l'
  end.

Fixpoint sort {A : Type} (cmp : A -> A -> Z) (l : list A) : list A :=
  match l with
  | [] => []
  | x :: l' => insert cmp x (sort cmp l')
  end.

End Array.

(** ** State and exceptions

    The three arrays [searchNews] declares and pushes to, and the log of the
    client calls made so far.  A computation returns a value or raises, and
    either way leaves a state behind. *)

Module St.
Record t := {
  errors : list string;
  news : list NewsResult.t;
  posts : list PostResult.t;
  calls : list Call;
}.
Definition init : t := {| errors := []; news := []; posts := []; calls := [] |}.
End St.

Definition M (A : Type) : Type := St.t -> Result A * St.t.

Definition ret {A : Type} (a : A) : M A := fun s => (Ok a, s).

Definition bind {A B : Type} (m : M A) (k : A -> M B) : M B :=
  fun s =>
    match m s with
    | (Ok a, s') => k a s'
    | (Raise err, s') => (Raise err, s')
    end.

Notation "x <- m ;; k" := (bind m (fun x => k))
  (at level 100, m at next level, right associativity).
Notation "m ;; k" := (bind m (fun _ => k))
  (at level 100, right associativity).

Definition lift {A : Type} (r : Result A) : M A := fun s => (r, s).

Definition get : M St.t := fun s => (Ok s, s).

(** [try { body } catch (err) { handler }] *)
Definition try_catch (body : M unit) (handler : Thrown -> M unit) : M unit :=
  fun s =>
    match body s with
    | (Ok _, s') => (Ok tt, s')
    | (Raise err, s') => handler err s'
    end.

(** [for (const x of l) { body }] *)
Fixpoint for_of {A : Type} (l : list A) (body : A -> M unit) : M unit :=
  match l with
  | [] => ret tt
  | x :: l' => body x ;; for_of l' body
  end.

Definition push_error (e : string) : M unit :=
  fun s =>
    (Ok tt, {| St.errors := St.errors s ++ [e]; St.news := St.news s;
               St.posts := St.posts s; St.calls := St.calls s |}).

Definition push_news (r : NewsResult.t) : M unit :=
  fun s =>
    (Ok tt, {| St.errors := St.errors s; St.news := St.news s ++ [r];
               St.posts := St.posts s; St.calls := St.calls s |}).

Definition push_post (r : PostResult.t) : M unit :=
  fun s =>
    (Ok tt, {| St.errors := St.errors s; St.news := St.news s;
               St.posts := St.posts s ++ [r]; St.calls := St.calls s |}).

Definition sort_posts (cmp : PostResult.t -> PostResult.t -> Z) : M unit :=
  fun s =>
    (Ok tt, {| St.errors := St.errors s; St.news := St.news s;
               St.posts := Array.sort cmp (St.posts s);
               St.calls := St.calls s |}).

Definition log_call (c : Call) (s : St.t) : St.t :=
  {| St.errors := St.errors s; St.news := St.news s;
     St.posts := St.posts s; St.calls := St.calls s ++ [c] |}.

Definition await {A : Type} (c : Call) (o : Outcome A) : M A :=
  fun s =>
    match o with
    | Returns r => (Ok r, log_call c s)
    | Throws err => (Raise err, log_call c s)
    end.

(** [await client.news.search(query, options)] *)
Definition call_news_search (client : Client) (query : string)
    (options : NewsOptions.t) : M NewsResponse.t :=
  await (NewsSearch query options) (news_search client query options).

(** [await client.posts.searchRecent(query, options)] *)
Definition call_posts_searchRecent (client : Client) (query : string)
    (options : PostOptions.t) : M PostResponse.t :=
  await (PostsSearchRecent query options)
        (posts_searchRecent client query options).

(** ** News search *)

(** The object pushed to [news] for one story of the response. *)
Definition normalizeStory (host : Host) (story : News.t) : Result NewsResult.t :=
  match
    match News.lastUpdatedAtMs story with
    | Some (String c ms) => toISOString (Date_ofNumeric host (String c ms))
    | Some EmptyString => Ok ""
    | None => Ok ""
    end
  with
  | Ok updatedAt =>
      Ok {| NewsResult.id := default "" (News.restId story);
            NewsResult.headline := default "" (News.name story);
            NewsResult.summary := default "" (News.summary story);
            NewsResult.hook := default "" (News.hook story);
            NewsResult.category := default "" (News.category story);
            NewsResult.keywords := default [] (News.keywords story);
            NewsResult.updatedAt := updatedAt |}
  | Raise err => Raise err
  end.

(** The value type of [userMap]. *)
Record UserEntry := {
  name : string;
  username : string;
  verified : bool;
}.

(** [userMap.set(user.id, {...})] for every included user, in order. *)
Definition buildUserMap (users : list User.t) : gmap string UserEntry :=
  fold_left
    (fun (userMap : gmap string UserEntry) (user : User.t) =>
       <[ User.id user :=
            {| name := User.name user;
               username := User.username user;
               verified := default false (User.verified user) |} ]> userMap)
    users ∅.

(** The object pushed to [posts] for one tweet of the response. *)
Definition normalizePost (userMap : gmap string UserEntry) (tweet : Tweet.t)
  : PostResult.t :=
  let tweetId := default "" (Tweet.id tweet) in
  let authorId := default "" (Tweet.authorId tweet) in
  let user := userMap !! authorId in
  let metrics := Tweet.publicMetrics tweet in
  {| PostResult.id := tweetId;
     PostResult.text := default "" (Tweet.text tweet);
     PostResult.authorId := authorId;
     PostResult.authorName := default "" (name <$> user);
     PostResult.authorUsername := default "" (username <$> user);
     PostResult.verified := default false (verified <$> user);
     PostResult.createdAt := default "" (Tweet.createdAt tweet);
     PostResult.likes := default 0 (metrics ≫= Metrics.like_count);
     PostResult.reposts := default 0 (metrics ≫= Metrics.retweet_count);
     PostResult.replies := default 0 (metrics ≫= Metrics.reply_count);
     PostResult.url :=
       match username <$> user with
       | Some (String c h) =>
           "https://x.com/" +:+ String c h +:+ "/status/" +:+ tweetId
       | _ => "https://x.com/i/status/" +:+ tweetId
       end |}.

(** The engagement score and the comparator handed to [posts.sort]. *)
Definition score (a : PostResult.t) : Z :=
  PostResult.likes a * 2 + PostResult.reposts a * 3 + PostResult.replies a.

Definition byEngagement (a b : PostResult.t) : Z :=
  let scoreA := score a in
  let scoreB := score b in
  scoreB - scoreA.

(** Step 1: the first [try]/[catch] of [searchNews]. *)
Definition newsStep (host : Host) (client : Client) (params : SearchParams.t)
  : M unit :=
  try_catch
    (let newsQuery := buildNewsQuery (SearchParams.queries params) in
     let maxAgeHours := SearchParams.days params * 24 in
     newsResponse <-
       call_news_search client newsQuery
         {| NewsOptions.maxResults := SearchParams.max params;
            NewsOptions.maxAgeHours := maxAgeHours |} ;;
     match NewsResponse.errors newsResponse with
     | Some (e :: errs) =>
         for_of (e :: errs)
           (fun err => push_error ("News API error: " +:+ JSON_stringify err))
     | _ => ret tt
     end ;;
     match NewsResponse.data newsResponse with
     | Some stories =>
         for_of stories
           (fun story => r <- lift (normalizeStory host story) ;; push_news r)
     | None => ret tt
     end)
    (fun err =>
       push_error ("News search failed: " +:+ err_message err
                   +:+ ". Falling back to post search.")).

(** Step 2: the body of the [if], the second [try]/[catch]. *)
Definition postStep (client : Client) (now : Z) (params : SearchParams.t)
  : M unit :=
  try_catch
    (let postQuery :=
       buildPostQuery (SearchParams.queries params) (SearchParams.lang params)
                      (SearchParams.raw params) in
     let startTime := Date.minusDays now (SearchParams.days params) in
     startTimeISO <- lift (toISOString startTime) ;;
     postResponse <-
       call_posts_searchRecent client postQuery
         {| PostOptions.startTime := startTimeISO;
            PostOptions.maxResults := SearchParams.max params;
            PostOptions.sortOrder := "relevancy";
            PostOptions.tweetFields :=
              [ "created_at"; "author_id"; "public_metrics"; "source";
                "entities" ];
            PostOptions.userFields :=
              [ "name"; "username"; "verified"; "profile_image_url" ];
            PostOptions.expansions := [ "author_id" ] |} ;;
     match PostResponse.errors postResponse with
     | Some (e :: errs) =>
         for_of (e :: errs)
           (fun err => push_error ("Posts API error: " +:+ JSON_stringify err))
     | _ => ret tt
     end ;;
     let userMap :=
       match PostResponse.includes postResponse ≫= Includes.users with
       | Some users => buildUserMap users
       | None => ∅
       end in
     match PostResponse.data postResponse with
     | Some tweets =>
         for_of tweets (fun tweet => push_post (normalizePost userMap tweet)) ;;
         sort_posts byEngagement
     | None => ret tt
     end)
    (fun err => push_error ("Post search failed: " +:+ err_message err)).

(** [now] is the time value of the [new Date()] taken in step 2. *)
Definition searchNews (host : Host) (client : Client) (now : Z)
    (params : SearchParams.t) : M SearchOutput.t :=
  newsStep host client params ;;
  s <- get ;;
  (if SearchParams.posts params || (length (St.news s) =? 0)%nat
   then postStep client now params
   else ret tt) ;;
  let queryLabel := JS.join " + " (SearchParams.queries params) in
  s <- get ;;
  ret {| SearchOutput.query := queryLabel;
         SearchOutput.news := St.news s;
         SearchOutput.posts := St.posts s;
         SearchOutput.errors := St.errors s |}.

(** One invocation, from the freshly declared empty arrays. *)
Definition run (host : Host) (client : Client) (now : Z)
    (params : SearchParams.t) : Result SearchOutput.t * St.t :=
  searchNews host client now params St.init.

(** ** Helpers of [format.ts] *)

(** [now] is the value of [Date.now()].  The operands of [Math.floor(x / k)]
    are integers below 2^53 and the quotients are far enough from the next
    integer for the rounded division to have the same floor, which is [Z]'s
    [/].  An unreadable date gives [NaN] throughout, hence "NaNd ago". *)
Definition timeAgo (host : Host) (now : Z) (isoDate : string) : string :=
  match isoDate with
  | EmptyString => ""
  | String _ _ =>
      match Date_parse host isoDate with
      | Some t =>
          let diff := now - t in
          let mins := diff / 60000 in
          if mins <? 60 then JS.string_of_int mins +:+ "m ago"
          else
            let hours := mins / 60 in
            if hours <? 24 then JS.string_of_int hours +:+ "h ago"
            else
              let days := hours / 24 in
              JS.string_of_int days +:+ "d ago"
      | None => "NaNd ago"
      end
  end.

(** The pair ([lines], [current]) of [wordWrap]'s loop. *)
Definition wrapStep (width : Z) (st : list string * string) (word : string)
  : list string * string :=
  let '(lines, current) := st in
  if Z.of_nat (String.length current) + Z.of_nat (String.length word) + 1 >? width
  then (lines ++ [current], word)
  else (lines,
        match current with
        | EmptyString => word
        | String _ _ => current +:+ " " +:+ word
        end).

Definition wordWrap (text : string) (width : Z) : list string :=
  let words := JS.split_whitespace text in
  let '(lines, current) := fold_left (wrapStep width) words ([], "") in
  match current with
  | EmptyString => lines
  | String _ _ => lines ++ [current]
  end.

(** ** The presenter ([format.ts])

    The styling functions of [chalk] are taken as they come: what each one
    returns depends on the colour support of the terminal.  The glyphs of the
    format strings lie outside the code units 0..255; they are written in
    UTF-8 here, and the program never measures them. *)

Module Chalk.
Record t := {
  dim : string -> string;
  white : string -> string;
  cyan : string -> string;
  yellow : string -> string;
  blue : string -> string;
  red : string -> string;
  green : string -> string;
  bold_white : string -> string;
  bold_underline : string -> string;
  red_bold : string -> string;
}.
(** [chalk] without colour support returns its argument. *)
Definition plain : t :=
  {| dim := fun s => s; white := fun s => s; cyan := fun s => s;
     yellow := fun s => s; blue := fun s => s; red := fun s => s;
     green := fun s => s; bold_white := fun s => s;
     bold_underline := fun s => s; red_bold := fun s => s |}.
End Chalk.

(** The line feed of ["\n"]. *)
Definition LF : string := String (ascii_of_nat 10) "".

(** [String.prototype.repeat] *)
Fixpoint repeat_string (s : string) (n : nat) : string :=
  match n with
  | O => ""
  | S n' => s +:+ repeat_string s n'
  end.

(** [`[${index + 1}]`] *)
Definition itemNumber (index : nat) : string :=
  "[" +:+ JS.string_of_int (Z.of_nat index + 1) +:+ "]".

(** The array [lines] of [formatNewsItem] before it is joined; [now] is the
    value [Date.now()] has in [timeAgo]. *)
Definition newsItemLines (chalk : Chalk.t) (host : Host) (now : Z)
    (item : NewsResult.t) (index : nat) : list string :=
  let num := Chalk.dim chalk (itemNumber index) in
  let headline :=
    Chalk.bold_white chalk
      (match NewsResult.headline item with
       | EmptyString => "(no headline)"
       | String _ _ => NewsResult.headline item
       end) in
  let cat :=
    match NewsResult.category item with
    | EmptyString => ""
    | String _ _ => Chalk.cyan chalk ("[" +:+ NewsResult.category item +:+ "]")
    end in
  let time :=
    match NewsResult.updatedAt item with
    | EmptyString => ""
    | String _ _ => Chalk.dim chalk (timeAgo host now (NewsResult.updatedAt item))
    end in
  [num +:+ " " +:+ cat +:+ " " +:+ headline +:+ " " +:+ time]
  ++ match NewsResult.hook item with
     | EmptyString => []
     | String _ _ => ["    " +:+ Chalk.yellow chalk (NewsResult.hook item)]
     end
  ++ match NewsResult.summary item with
     | EmptyString => []
     | String _ _ =>
         map (fun line => "    " +:+ Chalk.dim chalk line)
             (wordWrap (NewsResult.summary item) 86)
     end
  ++ (if (0 <? length (NewsResult.keywords item))%nat
      then ["    " +:+ Chalk.dim chalk "tags:" +:+ " "
              +:+ Chalk.blue chalk (JS.join ", " (NewsResult.keywords item))]
      else []).

Definition formatNewsItem (chalk : Chalk.t) (host : Host) (now : Z)
    (item : NewsResult.t) (index : nat) : string :=
  JS.join LF (newsItemLines chalk host now item index).

(** The array [lines] of [formatPostItem] before it is joined. *)
Definition postItemLines (chalk : Chalk.t) (host : Host) (now : Z)
    (item : PostResult.t) (index : nat) : list string :=
  let num := Chalk.dim chalk (itemNumber index) in
  let handle := Chalk.cyan chalk ("@" +:+ PostResult.authorUsername item) in
  let name := Chalk.white chalk (PostResult.authorName item) in
  let verified := if PostResult.verified item then Chalk.blue chalk " ✓" else "" in
  let time :=
    match PostResult.createdAt item with
    | EmptyString => ""
    | String _ _ => Chalk.dim chalk (timeAgo host now (PostResult.createdAt item))
    end in
  let metrics :=
    JS.join (Chalk.dim chalk "  ·  ")
      [ Chalk.red chalk "♥" +:+ " " +:+ JS.string_of_int (PostResult.likes item);
        Chalk.green chalk "↻" +:+ " " +:+ JS.string_of_int (PostResult.reposts item);
        Chalk.blue chalk "↩" +:+ " " +:+ JS.string_of_int (PostResult.replies item) ] in
  [num +:+ " " +:+ handle +:+ " " +:+ name +:+ verified +:+ " " +:+ time]
  ++ map (fun line => "    " +:+ line) (wordWrap (PostResult.text item) 86)
  ++ ["    " +:+ metrics]
  ++ ["    " +:+ Chalk.dim chalk (PostResult.url item)].

Definition formatPostItem (chalk : Chalk.t) (host : Host) (now : Z)
    (item : PostResult.t) (index : nat) : string :=
  JS.join LF (postItemLines chalk host now item index).

(** [for (let i = 0; i < items.length; i++) { sections.push(format(items[i],
    i)); if (i < items.length - 1) sections.push(""); }], from index [i]. *)
Fixpoint itemSections {A : Type} (format : A -> nat -> string)
    (items : list A) (i : nat) : list string :=
  match items with
  | [] => []
  | item :: rest =>
      format item i
        :: match rest with
           | [] => []
           | _ :: _ => "" :: itemSections format rest (S i)
           end
  end.

(** What [formatOutput] needs of its surroundings: the styling, the host,
    the text [JSON.stringify(output, null, 2)] gives, and the value of
    [Date.now()] while the [k]-th item, stories first, is formatted. *)
Module Terminal.
Record t := {
  chalk : Chalk.t;
  host : Host;
  stringify : SearchOutput.t -> string;
  nowAt : nat -> Z;
}.
End Terminal.

(** The array [sections] of [formatOutput] in text mode. *)
Definition outputSections (term : Terminal.t) (output : SearchOutput.t)
  : list string :=
  let chalk := Terminal.chalk term in
  let divider := Chalk.dim chalk (repeat_string "─" 72) in
  let news := SearchOutput.news output in
  let posts := SearchOutput.posts output in
  let errors := SearchOutput.errors output in
  [ ""; Chalk.bold_white chalk "  News search: "
          +:+ Chalk.yellow chalk (SearchOutput.query output); divider ]
  ++ (if (0 <? length news)%nat
      then [ ""; Chalk.bold_underline chalk
                   ("  News Stories ("
                      +:+ JS.string_of_int (Z.of_nat (length news)) +:+ ")"); "" ]
           ++ itemSections
                (fun item i =>
                   formatNewsItem chalk (Terminal.host term)
                     (Terminal.nowAt term i) item i)
                news 0
      else [])
  ++ (if (0 <? length posts)%nat
      then [ ""; Chalk.bold_underline chalk
                   ("  Posts (" +:+ JS.string_of_int (Z.of_nat (length posts))
                      +:+ ")"); "" ]
           ++ itemSections
                (fun item i =>
                   formatPostItem chalk (Terminal.host term)
                     (Terminal.nowAt term (length news + i)) item i)
                posts 0
      else [])
  ++ (if (length news =? 0)%nat && (length posts =? 0)%nat
      then [ ""; Chalk.yellow chalk "  No results found." ]
      else [])
  ++ (if (0 <? length errors)%nat
      then [ ""; Chalk.red_bold chalk "  Errors:" ]
           ++ map (fun err => Chalk.red chalk ("    - " +:+ err)) errors
      else [])
  ++ [ ""; divider; "" ].

Definition formatOutput (term : Terminal.t) (output : SearchOutput.t)
    (json : bool) : string :=
  if json then Terminal.stringify term output
  else JS.join LF (outputSections term output).

(** ** The command line ([index.ts]) *)

(** The options as the argument parser hands them over. *)
Module Options.
Record t := {
  search : list string;
  days : string;
  max : string;
  lang : string;
  raw : bool;
  posts : bool;
  json : bool;
}.
End Options.

Fixpoint skip_spaces (s : string) : string :=
  match s with
  | EmptyString => ""
  | String c s' => if JS.is_space c then skip_spaces s' else s
  end.

Definition digit_value (c : ascii) : option Z :=
  let n := nat_of_ascii c in
  if ((48 <=? n) && (n <=? 57))%nat then Some (Z.of_nat n - 48) else None.

(** The decimal digits [s] starts with, read after the digits [acc]. *)
Fixpoint leading_digits (acc : option Z) (s : string) : option Z :=
  match s with
  | EmptyString => acc
  | String c s' =>
      match digit_value c with
      | Some d => leading_digits (Some (10 * default 0 acc + d)) s'
      | None => acc
      end
  end.

(** [parseInt(s, 10)]: white space is skipped, a sign is read, then the
    longest run of digits; [None] is [NaN]. *)
Definition parseInt (s : string) : option Z :=
  match skip_spaces s with
  | String "-" s' => Z.opp <$> leading_digits None s'
  | String "+" s' => leading_digits None s'
  | s' => leading_digits None s'
  end.

(** [n || d] for a number [n]: [NaN] and zero give way to [d]. *)
Definition or_default (n : option Z) (d : Z) : Z :=
  match n with
  | Some v => if v =? 0 then d else v
  | None => d
  end.

(** [Math.min(hi, Math.max(1, parseInt(text, 10) || d))] *)
Definition clampOption (hi d : Z) (text : string) : Z :=
  Z.min hi (Z.max 1 (or_default (parseInt text) d)).

Definition paramsOf (opts : Options.t) : SearchParams.t :=
  {| SearchParams.queries := Options.search opts;
     SearchParams.days := clampOption 7 1 (Options.days opts);
     SearchParams.max := clampOption 100 10 (Options.max opts);
     SearchParams.lang := Options.lang opts;
     SearchParams.raw := Options.raw opts;
     SearchParams.posts := Options.posts opts |}.

(** What one run of the command leaves behind: the texts given to
    [console.log] and to [console.error], and the code handed to
    [process.exit], if it was called. *)
Module Process.
Record t := {
  stdout : list string;
  stderr : list string;
  exit : option Z;
}.
End Process.

(** The surroundings of the action: the variable [X_API_KEY] of the
    environment, [createClient], the terminal, and the value of [new Date()]
    in [searchNews]. *)
Module World.
Record t := {
  X_API_KEY : option string;
  createClient : string -> Client;
  terminal : Terminal.t;
  now : Z;
}.
End World.

Definition missingKeyMessage : string :=
  "Error: X_API_KEY not found." +:+ LF
    +:+ "Set it in a .env file or as an environment variable." +:+ LF
    +:+ "See .env.example for the expected format.".

(** The handler given to [.action]. *)
Definition action (world : World.t) (opts : Options.t) : Process.t :=
  match World.X_API_KEY world with
  | None | Some EmptyString =>
      {| Process.stdout := []; Process.stderr := [missingKeyMessage];
         Process.exit := Some 1 |}
  | Some (String c key) =>
      let apiKey := String c key in
      let params := paramsOf opts in
      if (length (SearchParams.queries params) =? 0)%nat
      then {| Process.stdout := [];
              Process.stderr := ["Error: At least one --search query is required."];
              Process.exit := Some 1 |}
      else
        let client := World.createClient world apiKey in
        match fst (run (Terminal.host (World.terminal world)) client
                       (World.now world) params) with
        | Ok result =>
            let output :=
              formatOutput (World.terminal world) result (Options.json opts) in
            {| Process.stdout := [output]; Process.stderr := [];
               Process.exit :=
                 if (0 <? length (SearchOutput.errors result))%nat
                    && (length (SearchOutput.news result) =? 0)%nat
                    && (length (SearchOutput.posts result) =? 0)%nat
                 then Some 1 else None |}
        | Raise err =>
            {| Process.stdout := [];
               Process.stderr := ["Fatal error: " +:+ err_message err];
               Process.exit := Some 1 |}
        end
  end.

(** ** Specification-side definitions *)

(** "Wrap each term in parentheses and join with [" OR "]", spelled out term
    by term. *)
Fixpoint parenthesized_or (terms : list string) : string :=
  match terms with
  | [] => ""
  | t :: rest =>
      match rest with
      | [] => "(" +:+ t +:+ ")"
      | _ :: _ => "(" +:+ t +:+ ") OR " +:+ parenthesized_or rest
      end
  end.

(** The state with one array replaced. *)
Definition set_errors (s : St.t) (l : list string) : St.t :=
  {| St.errors := l; St.news := St.news s; St.posts := St.posts s;
     St.calls := St.calls s |}.

Definition set_news (s : St.t) (l : list NewsResult.t) : St.t :=
  {| St.errors := St.errors s; St.news := l; St.posts := St.posts s;
     St.calls := St.calls s |}.

Definition set_posts (s : St.t) (l : list PostResult.t) : St.t :=
  {| St.errors := St.errors s; St.news := St.news s; St.posts := l;
     St.calls := St.calls s |}.

(** The stories of a response normalized in order, up to the first one whose
    normalization raises. *)
Fixpoint normalizeAll (host : Host) (stories : list News.t)
  : list NewsResult.t * option Thrown :=
  match stories with
  | [] => ([], None)
  | story :: rest =>
      match normalizeStory host story with
      | Ok r => let '(rs, e) := normalizeAll host rest in (r :: rs, e)
      | Raise err => ([], Some err)
      end
  end.

(** The texts the two [catch] blocks push. *)
Definition newsFailed (err : Thrown) : string :=
  "News search failed: " +:+ err_message err +:+ ". Falling back to post search.".

Definition postFailed (err : Thrown) : string :=
  "Post search failed: " +:+ err_message err.

Definition newsApiError (err : Problem) : string :=
  "News API error: " +:+ JSON_stringify err.

Definition postsApiError (err : Problem) : string :=
  "Posts API error: " +:+ JSON_stringify err.

(** The request of step 1. *)
Definition newsOptions (params : SearchParams.t) : NewsOptions.t :=
  {| NewsOptions.maxResults := SearchParams.max params;
     NewsOptions.maxAgeHours := SearchParams.days params * 24 |}.

(** The request of step 2 for a start time already rendered. *)
Definition postOptions (startTimeISO : string) (params : SearchParams.t)
  : PostOptions.t :=
  {| PostOptions.startTime := startTimeISO;
     PostOptions.maxResults := SearchParams.max params;
     PostOptions.sortOrder := "relevancy";
     PostOptions.tweetFields :=
       [ "created_at"; "author_id"; "public_metrics"; "source"; "entities" ];
     PostOptions.userFields :=
       [ "name"; "username"; "verified"; "profile_image_url" ];
     PostOptions.expansions := [ "author_id" ] |}.

(** The user map step 2 builds from a response. *)
Definition userMapOf (postResponse : PostResponse.t) : gmap string UserEntry :=
  match PostResponse.includes postResponse ≫= Includes.users with
  | Some users => buildUserMap users
  | None => ∅
  end.

(** What step 1 leaves in [news] and appends to [errors]. *)
Definition newsEffect (host : Host) (client : Client) (params : SearchParams.t)
  : list NewsResult.t * list string :=
  match news_search client (buildNewsQuery (SearchParams.queries params))
                    (newsOptions params) with
  | Throws err => ([], [newsFailed err])
  | Returns r =>
      let api := map newsApiError (default [] (NewsResponse.errors r)) in
      match NewsResponse.data r with
      | None => ([], api)
      | Some stories =>
          let '(rs, e) := normalizeAll host stories in
          (rs, api ++ match e with
                      | None => []
                      | Some err => [newsFailed err]
                      end)
      end
  end.

(** What step 2, when it runs, leaves in [posts], appends to [errors] and
    calls. *)
Definition postEffect (client : Client) (now : Z) (params : SearchParams.t)
  : list PostResult.t * list string * list Call :=
  match toISOString (Date.minusDays now (SearchParams.days params)) with
  | Raise err => ([], [postFailed err], [])
  | Ok startTimeISO =>
      let q := buildPostQuery (SearchParams.queries params)
                 (SearchParams.lang params) (SearchParams.raw params) in
      let o := postOptions startTimeISO params in
      match posts_searchRecent client q o with
      | Throws err => ([], [postFailed err], [PostsSearchRecent q o])
      | Returns r =>
          (match PostResponse.data r with
           | Some tweets =>
               Array.sort byEngagement (map (normalizePost (userMapOf r)) tweets)
           | None => []
           end,
           map postsApiError (default [] (PostResponse.errors r)),
           [PostsSearchRecent q o])
      end
  end.

(** A line with one more word, after a single space. *)
Definition add_word (current word : string) : string :=
  match current with
  | EmptyString => word
  | String _ _ => current +:+ " " +:+ word
  end.

(** "Accumulate words separated by single spaces until adding the next word
    would exceed the width, then start a new line": the lines packed from
    [words] when [current] is the line being filled.  Adding a word costs its
    length and one separator. *)
Fixpoint greedy_pack (width : Z) (current : string) (words : list string)
  : list string :=
  match words with
  | [] =>
      match current with
      | EmptyString => []
      | String _ _ => [current]
      end
  | word :: rest =>
      if width <? Z.of_nat (String.length current)
                  + Z.of_nat (String.length word) + 1
      then current :: greedy_pack width word rest
      else greedy_pack width (add_word current word) rest
  end.

(** The entry [buildUserMap] stores for a user. *)
Definition entryOf (user : User.t) : UserEntry :=
  {| name := User.name user;
     username := User.username user;
     verified := default false (User.verified user) |}.

(** The timestamp of a story, when present and not empty, converts to a time
    value in the range of [Date]. *)
Definition validTimestamp (host : Host) (story : News.t) : Prop :=
  match News.lastUpdatedAtMs story with
  | Some (String c ms) =>
      exists t, Date_ofNumeric host (String c ms) = Some t
                /\ Z.abs t <= Date.maxTimeValue
  | _ => True
  end.

(** The code units of a string that are not white space, in order. *)
Fixpoint nonspace (s : string) : string :=
  match s with
  | EmptyString => ""
  | String c s' => if JS.is_space c then nonspace s' else String c (nonspace s')
  end.

(** The strings of a list one after the other. *)
Definition concat_strings (l : list string) : string :=
  fold_right String.append "" l.

(** Every code unit of the string is white space. *)
Fixpoint all_space (s : string) : bool :=
  match s with
  | EmptyString => true
  | String c s' => JS.is_space c && all_space s'
  end.

(** Every string of the list but the last is not empty. *)
Fixpoint inner_nonempty (l : list string) : Prop :=
  match l with
  | [] => True
  | x :: rest =>
      match rest with
      | [] => True
      | _ :: _ => x <> "" /\ inner_nonempty rest
      end
  end.

(** ** Sample values *)

Definition digit (c : ascii) : option Z :=
  let n := nat_of_ascii c in
  if ((48 <=? n) && (n <=? 57))%nat then Some (Z.of_nat n - 48) else None.

Fixpoint decimal_value (acc : Z) (s : string) : option Z :=
  match s with
  | EmptyString => Some acc
  | String c s' =>
      match digit c with
      | Some d => decimal_value (10 * acc + d) s'
      | None => None
      end
  end.

(** A host that reads a string of decimal digits as that number of
    milliseconds and knows the text of the epoch; the other strings used
    below are neither numeric literals nor dates. *)
Definition sampleHost : Host :=
  {| Date_parse := fun s =>
       if String.eqb s "1970-01-01T00:00:00.000Z" then Some 0 else None;
     Date_ofNumeric := fun s =>
       match decimal_value 0 s with
       | Some n => Date.TimeClip n
       | None => None
       end |}.

Definition emptyStory : News.t :=
  {| News.restId := None; News.name := None; News.summary := None;
     News.hook := None; News.category := None; News.keywords := None;
     News.lastUpdatedAtMs := None |}.

Definition emptyTweet : Tweet.t :=
  {| Tweet.id := None; Tweet.text := None; Tweet.authorId := None;
     Tweet.createdAt := None; Tweet.publicMetrics := None |}.

Definition sampleNow : Z := 1700000000000.

Definition sampleParams (posts : bool) : SearchParams.t :=
  {| SearchParams.queries := ["gold"; "silver market"];
     SearchParams.days := 1;
     SearchParams.max := 10;
     SearchParams.lang := "en";
     SearchParams.raw := false;
     SearchParams.posts := posts |}.

Definition sampleStories : list News.t :=
  [ {| News.restId := Some "n1"; News.name := Some "Gold rallies";
       News.summary := None; News.hook := None;
       News.category := Some "Business"; News.keywords := Some ["gold"];
       News.lastUpdatedAtMs := Some "1699999000000" |};
    {| News.restId := Some "n2"; News.name := None; News.summary := None;
       News.hook := None; News.category := None; News.keywords := None;
       News.lastUpdatedAtMs := None |} ].

Definition sampleUsers : list User.t :=
  [ {| User.id := "u1"; User.name := "Ann"; User.username := "ann";
       User.verified := Some true |} ].

Definition sampleTweet (id author : string) (likes reposts replies : Z)
  : Tweet.t :=
  {| Tweet.id := Some id; Tweet.text := Some "gold is up";
     Tweet.authorId := Some author; Tweet.createdAt := None;
     Tweet.publicMetrics :=
       Some {| Metrics.like_count := Some likes;
               Metrics.retweet_count := Some reposts;
               Metrics.reply_count := Some replies |} |}.

(** Scores 20, 15, 105 and 20 again. *)
Definition sampleTweets : list Tweet.t :=
  [ sampleTweet "t1" "u1" 10 0 0; sampleTweet "t2" "u2" 0 5 0;
    sampleTweet "t3" "u1" 1 1 100; sampleTweet "t4" "u2" 4 4 0 ].

Definition samplePostResponse : PostResponse.t :=
  {| PostResponse.data := Some sampleTweets;
     PostResponse.includes := Some {| Includes.users := Some sampleUsers |};
     PostResponse.errors := Some ["{}"] |}.

(** Both endpoints answer. *)
Definition sampleClient : Client :=
  {| news_search := fun _ _ =>
       Returns {| NewsResponse.data := Some sampleStories;
                  NewsResponse.errors := None |};
     posts_searchRecent := fun _ _ => Returns samplePostResponse |}.

(** The news call throws, the post call answers. *)
Definition newsDownClient : Client :=
  {| news_search := fun _ _ => Throws (ErrorObject "Error" "fetch failed");
     posts_searchRecent := fun _ _ => Returns samplePostResponse |}.

(** A story whose timestamp is not a number, and one beyond the range of
    [Date]. *)
Definition undatedStory (ms : string) : News.t :=
  {| News.restId := Some "n3"; News.name := Some "Silver slips";
     News.summary := None; News.hook := None; News.category := None;
     News.keywords := None; News.lastUpdatedAtMs := Some ms |}.

(** A terminal without colour whose clock stands still, and the command run
    with a key against [sampleClient] or a client of one's choice. *)
Definition sampleTerminal : Terminal.t :=
  {| Terminal.chalk := Chalk.plain;
     Terminal.host := sampleHost;
     Terminal.stringify := fun output => "{}";
     Terminal.nowAt := fun _ => sampleNow |}.

Definition sampleWorld (key : option string) (client : Client) : World.t :=
  {| World.X_API_KEY := key;
     World.createClient := fun _ => client;
     World.terminal := sampleTerminal;
     World.now := sampleNow |}.

Definition sampleOptions (search : list string) (days max : string)
  : Options.t :=
  {| Options.search := search; Options.days := days; Options.max := max;
     Options.lang := "en"; Options.raw := false; Options.posts := false;
     Options.json := false |}.

(** Both calls throw. *)
Definition downClient : Client :=
  {| news_search := fun _ _ => Throws (ErrorObject "Error" "fetch failed");
     posts_searchRecent := fun _ _ => Throws (ThrownString "offline") |}.

(** Both endpoints answer with nothing. *)
Definition quietClient : Client :=
  {| news_search := fun _ _ =>
       Returns {| NewsResponse.data := Some [];
                  NewsResponse.errors := None |};
     posts_searchRecent := fun _ _ =>
       Returns {| PostResponse.data := None; PostResponse.includes := None;
                  PostResponse.errors := Some [] |} |}.

Definition sampleUser (id name username : string) : User.t :=
  {| User.id := id; User.name := name; User.username := username;
     User.verified := None |}.

Definition samplePost (text : string) : PostResult.t :=
  {| PostResult.id := "t9"; PostResult.text := text;
     PostResult.authorId := "u1"; PostResult.authorName := "Ann";
     PostResult.authorUsername := "ann"; PostResult.verified := false;
     PostResult.createdAt := ""; PostResult.likes := 1;
     PostResult.reposts := 2; PostResult.replies := 3;
     PostResult.url := "https://x.com/ann/status/t9" |}.

(** * Properties of the query builder *)

Section QueryBuilder.

Lemma append_nil_l (s : string) : "" +:+ s = s.
Proof. reflexivity. Qed.

Lemma append_cons (c : ascii) (a b : string) :
  String c a +:+ b = String c (a +:+ b).
Proof. reflexivity. Qed.

Lemma append_assoc (a b c : string) : (a +:+ b) +:+ c = a +:+ (b +:+ c).
Proof.
  induction a as [|x a IH]; [reflexivity|].
  now rewrite !append_cons, IH.
Qed.

Lemma join_parenthesized (terms : list string) :
  JS.join " OR " (map (fun q => "(" +:+ q +:+ ")") terms) = parenthesized_or terms.
Proof.
  induction terms as [|t rest IH]; [reflexivity|].
  destruct rest as [|t' rest]; [reflexivity|].
  change (("(" +:+ t +:+ ")") +:+ " OR "
            +:+ JS.join " OR " (map (fun q => "(" +:+ q +:+ ")") (t' :: rest))
          = "(" +:+ t +:+ ") OR " +:+ parenthesized_or (t' :: rest)).
  rewrite IH, !append_assoc. reflexivity.
Qed.

(** C4. For a non-empty list of terms, the expression [buildPostQuery] builds
    from the terms (all of the result in raw mode, the part before the filters
    otherwise) is the term itself when there is exactly one, with no
    parentheses added, and otherwise the terms in input order, each in
    parentheses, joined with " OR ". *)
Theorem buildPostQuery_combined (queries : list string) (lang : string) :
  (forall q, queries = [q] ->
     buildPostQuery queries lang true = q
     /\ buildPostQuery queries lang false
        = q +:+ " " +:+ JS.join " " (filters lang))
  /\ ((2 <= length queries)%nat ->
      buildPostQuery queries lang true = parenthesized_or queries
      /\ buildPostQuery queries lang false
         = parenthesized_or queries +:+ " " +:+ JS.join " " (filters lang)).
Proof.
  split.
  - intros q ->. split; reflexivity.
  - intros Hlen. unfold buildPostQuery, combined.
    destruct (Nat.eqb_spec (length queries) 1) as [E|_]; [lia|].
    rewrite join_parenthesized. split; reflexivity.
Qed.

Lemma buildPostQuery_combined_witness :
  buildPostQuery ["gold"] "en" true = "gold"
  /\ buildPostQuery ["gold"; "silver market"] "en" true
     = "(gold) OR (silver market)".
Proof.
  split.
  - exact (proj1 (proj1 (buildPostQuery_combined ["gold"] "en") "gold" eq_refl)).
  - exact (proj1 (proj2 (buildPostQuery_combined ["gold"; "silver market"] "en")
                        ltac:(simpl; lia))).
Defined.

(** C5. In raw mode [buildPostQuery] returns the combined expression as it
    is; otherwise it returns the combined expression followed by the five
    filter tokens, each after one space, in this order: no reposts, no
    replies, has a link, no promotion-only content, the language. *)
Theorem buildPostQuery_filters (queries : list string) (lang : string) :
  buildPostQuery queries lang true = combined queries
  /\ buildPostQuery queries lang false
     = combined queries
         +:+ " -is:retweet -is:reply has:links -is:nullcast lang:" +:+ lang
  /\ filters lang
     = ["-is:retweet"; "-is:reply"; "has:links"; "-is:nullcast"; "lang:" +:+ lang]
  /\ length (filters lang) = 5%nat.
Proof. repeat split. Qed.

Lemma count_char_app (c : ascii) (a b : string) :
  JS.count_char c (a +:+ b) = (JS.count_char c a + JS.count_char c b)%nat.
Proof.
  induction a as [|x a IH]; [reflexivity|].
  rewrite append_cons. simpl. rewrite IH. lia.
Qed.

Lemma count_char_join (c : ascii) (sep : string) (l : list string) :
  JS.count_char c (JS.join sep l)
  = (sum_list (map (JS.count_char c) l)
     + (length l - 1) * JS.count_char c sep)%nat.
Proof.
  induction l as [|x tl IH]; [reflexivity|].
  destruct tl as [|y tl]; [simpl; lia|].
  change (JS.join sep (x :: y :: tl)) with (x +:+ sep +:+ JS.join sep (y :: tl)).
  rewrite !count_char_app, IH. simpl. lia.
Qed.

(** C6. [buildNewsQuery] joins the terms with " OR " whatever their number:
    nothing for no term, the term for one, and a term, " OR " and the rest
    otherwise.  It takes neither language nor raw flag, and it adds no
    parenthesis: the result has as many "(" and as many ")" as the terms have
    together. *)
Theorem buildNewsQuery_joins (queries : list string) :
  buildNewsQuery [] = ""
  /\ (forall q, buildNewsQuery [q] = q)
  /\ (forall q q' rest,
        buildNewsQuery (q :: q' :: rest)
        = q +:+ " OR " +:+ buildNewsQuery (q' :: rest))
  /\ JS.count_char "(" (buildNewsQuery queries)
     = sum_list (map (JS.count_char "(") queries)
  /\ JS.count_char ")" (buildNewsQuery queries)
     = sum_list (map (JS.count_char ")") queries).
Proof.
  repeat split; unfold buildNewsQuery; rewrite count_char_join; simpl; lia.
Qed.

End QueryBuilder.

(** * Properties of [Array.sort] *)

Section Sorting.

Context {A : Type}.
Variable cmp : A -> A -> Z.

Lemma insert_permutation (x : A) (l : list A) :
  Permutation (Array.insert cmp x l) (x :: l).
Proof.
  induction l as [|y l IH]; simpl; [reflexivity|].
  destruct (cmp x y <=? 0); [reflexivity|].
  rewrite IH. apply perm_swap.
Qed.

Lemma sort_permutation (l : list A) : Permutation (Array.sort cmp l) l.
Proof.
  induction l as [|x l IH]; simpl; [reflexivity|].
  rewrite insert_permutation. now constructor.
Qed.

(** Stability needs nothing of the comparator: an element only moves past
    elements it must follow, so the members of a class of elements that never
    have to follow one another keep their order. *)
Section Stable.

Variable tied : A -> bool.
Hypothesis tied_no_swap :
  forall x y, tied x = true -> tied y = true -> cmp x y <= 0.

Lemma insert_filter (x : A) (l : list A) :
  List.filter tied (Array.insert cmp x l) = List.filter tied (x :: l).
Proof.
  induction l as [|y l IH]; [reflexivity|].
  simpl Array.insert. destruct (Z.leb_spec (cmp x y) 0) as [Hle|Hgt].
  - reflexivity.
  - simpl. simpl in IH. rewrite IH.
    destruct (tied x) eqn:Hx; [|reflexivity].
    destruct (tied y) eqn:Hy; [|reflexivity].
    specialize (tied_no_swap x y Hx Hy). lia.
Qed.

Lemma sort_filter (l : list A) :
  List.filter tied (Array.sort cmp l) = List.filter tied l.
Proof.
  induction l as [|x l IH]; [reflexivity|].
  simpl Array.sort. rewrite insert_filter. simpl. now rewrite IH.
Qed.

End Stable.

(** Sortedness needs a consistent comparator. *)
Section Ordered.

Hypothesis cmp_total : forall x y, 0 < cmp x y -> cmp y x <= 0.
Hypothesis cmp_trans :
  forall x y z, cmp x y <= 0 -> cmp y z <= 0 -> cmp x z <= 0.

Lemma insert_sorted (x : A) (l : list A) :
  StronglySorted (fun a b => cmp a b <= 0) l ->
  StronglySorted (fun a b => cmp a b <= 0) (Array.insert cmp x l).
Proof.
  induction 1 as [|y l Hsorted IH Hall]; simpl.
  - repeat constructor.
  - destruct (Z.leb_spec (cmp x y) 0) as [Hle|Hgt].
    + constructor; [now constructor|].
      constructor; [exact Hle|].
      eapply Forall_impl; [exact Hall|]. intros z Hz. now apply (cmp_trans x y z).
    + constructor; [exact IH|].
      eapply Permutation_Forall; [symmetry; apply insert_permutation|].
      constructor; [now apply cmp_total | exact Hall].
Qed.

Lemma sort_sorted (l : list A) :
  StronglySorted (fun a b => cmp a b <= 0) (Array.sort cmp l).
Proof.
  induction l as [|x l IH]; simpl; [constructor | now apply insert_sorted].
Qed.

End Ordered.

End Sorting.

Lemma StronglySorted_weaken {A : Type} (R R' : A -> A -> Prop) (l : list A) :
  (forall a b, R a b -> R' a b) -> StronglySorted R l -> StronglySorted R' l.
Proof.
  intros HR. induction 1 as [|x l _ IH Hall]; constructor; [exact IH|].
  eapply Forall_impl; [exact Hall|]. intros y. apply HR.
Qed.

(** The ranking of [searchNews]: descending score, ties in input order. *)
Lemma sort_byEngagement_sorted (l : list PostResult.t) :
  StronglySorted (fun a b => score b <= score a) (Array.sort byEngagement l).
Proof.
  apply (StronglySorted_weaken (fun a b => byEngagement a b <= 0)).
  - intros a b. unfold byEngagement. lia.
  - apply sort_sorted.
    + intros x y. unfold byEngagement. lia.
    + intros x y z. unfold byEngagement. lia.
Qed.

Lemma sort_byEngagement_stable (v : Z) (l : list PostResult.t) :
  List.filter (fun p => score p =? v) (Array.sort byEngagement l)
  = List.filter (fun p => score p =? v) l.
Proof.
  apply sort_filter. intros x y Hx Hy.
  apply Z.eqb_eq in Hx, Hy. unfold byEngagement. lia.
Qed.

(** * Properties of the search orchestrator *)

Section Orchestrator.

Variable host : Host.
Variable client : Client.

Lemma for_of_push_error (f : Problem -> string) (errs : list Problem) (s : St.t) :
  for_of errs (fun err => push_error (f err)) s
  = (Ok tt, set_errors s (St.errors s ++ map f errs)).
Proof.
  revert s. induction errs as [|e errs IH]; intros s.
  - simpl. unfold ret, set_errors. rewrite app_nil_r. now destruct s.
  - simpl. unfold bind at 1. unfold push_error at 1. rewrite IH.
    unfold set_errors. simpl. now rewrite <- app_assoc.
Qed.

Lemma for_of_push_post (f : Tweet.t -> PostResult.t) (tweets : list Tweet.t)
    (s : St.t) :
  for_of tweets (fun tweet => push_post (f tweet)) s
  = (Ok tt, set_posts s (St.posts s ++ map f tweets)).
Proof.
  revert s. induction tweets as [|t tweets IH]; intros s.
  - simpl. unfold ret, set_posts. rewrite app_nil_r. now destruct s.
  - simpl. unfold bind at 1. unfold push_post at 1. rewrite IH.
    unfold set_posts. simpl. now rewrite <- app_assoc.
Qed.

Lemma for_of_push_news (stories : list News.t) (s : St.t) :
  for_of stories
    (fun story => r <- lift (normalizeStory host story) ;; push_news r) s
  = (match snd (normalizeAll host stories) with
     | None => Ok tt
     | Some err => Raise err
     end,
     set_news s (St.news s ++ fst (normalizeAll host stories))).
Proof.
  revert s. induction stories as [|story rest IH]; intros s.
  - simpl. unfold ret, set_news. rewrite app_nil_r. now destruct s.
  - simpl. unfold bind at 1. unfold bind at 1. unfold lift at 1.
    destruct (normalizeStory host story) as [r|err].
    + unfold push_news at 1. rewrite IH.
      destruct (normalizeAll host rest) as [rs e]. unfold set_news. simpl.
      now rewrite <- app_assoc.
    + simpl. unfold set_news. rewrite app_nil_r. now destruct s.
Qed.

(** Step 1 never raises; it logs its one call, leaves [posts] alone and has
    the effect [newsEffect] on [news] and [errors]. *)
Lemma newsStep_eq (params : SearchParams.t) (s : St.t) :
  newsStep host client params s
  = (Ok tt,
     {| St.errors := St.errors s ++ snd (newsEffect host client params);
        St.news := St.news s ++ fst (newsEffect host client params);
        St.posts := St.posts s;
        St.calls := St.calls s
          ++ [NewsSearch (buildNewsQuery (SearchParams.queries params))
                         (newsOptions params)] |}).
Proof.
  unfold newsStep, newsEffect, try_catch, call_news_search, await.
  fold (newsOptions params).
  unfold bind at 1.
  destruct (news_search client _ _) as [r|err]; simpl.
  2: { unfold push_error, log_call. simpl. now rewrite app_nil_r. }
  unfold bind at 1.
  assert (Hapi : forall s0,
    match NewsResponse.errors r with
    | Some (e :: errs) =>
        for_of (e :: errs)
          (fun err => push_error ("News API error: " +:+ JSON_stringify err))
    | _ => ret tt
    end s0
    = (Ok tt, set_errors s0
        (St.errors s0 ++ map newsApiError (default [] (NewsResponse.errors r))))).
  { intros s0. destruct (NewsResponse.errors r) as [[|e errs]|].
    - unfold ret, set_errors; simpl. rewrite app_nil_r. now destruct s0.
    - apply (for_of_push_error newsApiError).
    - unfold ret, set_errors; simpl. rewrite app_nil_r. now destruct s0. }
  rewrite Hapi. clear Hapi.
  destruct (NewsResponse.data r) as [stories|].
  - rewrite for_of_push_news.
    destruct (normalizeAll host stories) as [rs [err|]]; simpl.
    + unfold push_error, newsFailed. simpl. now rewrite <- app_assoc.
    + now rewrite !app_nil_r.
  - unfold ret. simpl. now rewrite app_nil_r.
Qed.

(** Step 2 never raises; it leaves [news] alone and has the effect
    [postEffect] on [posts], [errors] and the call log. *)
Lemma postStep_eq (now : Z) (params : SearchParams.t) (s : St.t) :
  St.posts s = [] ->
  postStep client now params s
  = (Ok tt,
     {| St.errors := St.errors s ++ snd (fst (postEffect client now params));
        St.news := St.news s;
        St.posts := fst (fst (postEffect client now params));
        St.calls := St.calls s ++ snd (postEffect client now params) |}).
Proof.
  intros Hposts.
  unfold postStep, postEffect, try_catch, call_posts_searchRecent, await.
  unfold bind at 1. unfold lift at 1.
  destruct (toISOString _) as [startTimeISO|err]; simpl.
  2: { unfold push_error, postFailed. simpl. rewrite app_nil_r.
       now rewrite Hposts. }
  fold (postOptions startTimeISO params).
  unfold bind at 1.
  destruct (posts_searchRecent client _ _) as [r|err]; simpl.
  2: { unfold push_error, log_call, postFailed. simpl. now rewrite Hposts. }
  unfold bind at 1.
  assert (Hapi : forall s0,
    match PostResponse.errors r with
    | Some (e :: errs) =>
        for_of (e :: errs)
          (fun err => push_error ("Posts API error: " +:+ JSON_stringify err))
    | _ => ret tt
    end s0
    = (Ok tt, set_errors s0
        (St.errors s0 ++ map postsApiError (default [] (PostResponse.errors r))))).
  { intros s0. destruct (PostResponse.errors r) as [[|e errs]|].
    - unfold ret, set_errors; simpl. rewrite app_nil_r. now destruct s0.
    - apply (for_of_push_error postsApiError).
    - unfold ret, set_errors; simpl. rewrite app_nil_r. now destruct s0. }
  rewrite Hapi. clear Hapi.
  fold (userMapOf r).
  destruct (PostResponse.data r) as [tweets|].
  - unfold bind at 1.
    rewrite (for_of_push_post (normalizePost (userMapOf r))).
    unfold sort_posts. simpl.
    now rewrite Hposts.
  - unfold ret, set_errors, log_call. simpl. now rewrite Hposts.
Qed.

(** The whole of one invocation in closed form. *)
Lemma run_eq (now : Z) (params : SearchParams.t) :
  let ne := newsEffect host client params in
  let pe := if SearchParams.posts params || (length (fst ne) =? 0)%nat
            then postEffect client now params
            else ([], [], []) in
  run host client now params
  = (Ok {| SearchOutput.query := JS.join " + " (SearchParams.queries params);
           SearchOutput.news := fst ne;
           SearchOutput.posts := fst (fst pe);
           SearchOutput.errors := snd ne ++ snd (fst pe) |},
     {| St.errors := snd ne ++ snd (fst pe);
        St.news := fst ne;
        St.posts := fst (fst pe);
        St.calls := NewsSearch (buildNewsQuery (SearchParams.queries params))
                               (newsOptions params) :: snd pe |}).
Proof.
  intros ne pe. unfold run, searchNews.
  unfold bind at 1. rewrite newsStep_eq. fold ne. simpl.
  unfold bind at 1. unfold get at 1. simpl.
  unfold bind at 1. subst pe.
  destruct (SearchParams.posts params || (length (fst ne) =? 0)%nat).
  - rewrite postStep_eq by reflexivity. simpl. reflexivity.
  - unfold ret. simpl. now rewrite app_nil_r.
Qed.

(** *** What the two effects contain *)

Lemma normalizeAll_ok (stories : list News.t) (rs : list NewsResult.t) :
  Forall2 (fun story r => normalizeStory host story = Ok r) stories rs ->
  normalizeAll host stories = (rs, None).
Proof.
  induction 1 as [|story r stories rs Hr _ IH]; [reflexivity|].
  simpl. now rewrite Hr, IH.
Qed.

Lemma normalizeAll_raise (stories rest : list News.t) (story : News.t)
    (rs : list NewsResult.t) (err : Thrown) :
  Forall2 (fun story r => normalizeStory host story = Ok r) stories rs ->
  normalizeStory host story = Raise err ->
  normalizeAll host (stories ++ story :: rest) = (rs, Some err).
Proof.
  intros Hok Hraise.
  induction Hok as [|story' r stories rs Hr _ IH]; simpl.
  - now rewrite Hraise.
  - now rewrite Hr, IH.
Qed.

Lemma newsEffect_errors_form (params : SearchParams.t) (e : string) :
  In e (snd (newsEffect host client params)) ->
  (exists p, e = newsApiError p) \/ (exists err, e = newsFailed err).
Proof.
  unfold newsEffect.
  destruct (news_search client _ _) as [r|err]; simpl.
  2: { intros [<-|[]]. right. now exists err. }
  assert (Hapi : forall e', In e' (map newsApiError (default [] (NewsResponse.errors r)))
                   -> exists p, e' = newsApiError p).
  { intros e' He'. apply in_map_iff in He' as (p & <- & _). now exists p. }
  destruct (NewsResponse.data r) as [stories|]; simpl.
  - destruct (normalizeAll host stories) as [rs [err|]]; simpl.
    + rewrite in_app_iff. intros [H|[<-|[]]]; [left; now apply Hapi|].
      right. now exists err.
    + rewrite app_nil_r. intros H. left. now apply Hapi.
  - intros H. left. now apply Hapi.
Qed.

Lemma news_text_not_postFailed (e : string) (err : Thrown) :
  (exists p, e = newsApiError p) \/ (exists err', e = newsFailed err') ->
  e <> postFailed err.
Proof.
  intros [[p ->]|[err' ->]]; unfold newsApiError, newsFailed, postFailed;
    rewrite !append_cons; discriminate.
Qed.

Lemma postEffect_calls (now : Z) (params : SearchParams.t) (q : string)
    (o : PostOptions.t) :
  In (PostsSearchRecent q o) (snd (postEffect client now params)) ->
  exists startTimeISO,
    toISOString (Date.minusDays now (SearchParams.days params)) = Ok startTimeISO
    /\ q = buildPostQuery (SearchParams.queries params)
             (SearchParams.lang params) (SearchParams.raw params)
    /\ o = postOptions startTimeISO params.
Proof.
  unfold postEffect.
  destruct (toISOString _) as [iso|err]; simpl; [|intros []].
  destruct (posts_searchRecent client _ _) as [r|err]; simpl;
    (intros [H|[]]; injection H as <- <-; now exists iso).
Qed.

Lemma newsEffect_throws (params : SearchParams.t) (err : Thrown) :
  news_search client (buildNewsQuery (SearchParams.queries params))
              (newsOptions params) = Throws err ->
  newsEffect host client params = ([], [newsFailed err]).
Proof. intros H. unfold newsEffect. now rewrite H. Qed.

Lemma newsEffect_returns (params : SearchParams.t) (r : NewsResponse.t) :
  news_search client (buildNewsQuery (SearchParams.queries params))
              (newsOptions params) = Returns r ->
  exists tail,
    snd (newsEffect host client params)
    = map newsApiError (default [] (NewsResponse.errors r)) ++ tail
    /\ forall stories, NewsResponse.data r = Some stories ->
        fst (newsEffect host client params) = fst (normalizeAll host stories)
        /\ tail = match snd (normalizeAll host stories) with
                  | None => []
                  | Some err => [newsFailed err]
                  end.
Proof.
  intros H. unfold newsEffect. rewrite H.
  destruct (NewsResponse.data r) as [stories|].
  - exists (match snd (normalizeAll host stories) with
            | None => []
            | Some err => [newsFailed err]
            end).
    split; [now destruct (normalizeAll host stories)|].
    intros ? [= <-]. now destruct (normalizeAll host stories).
  - exists []. simpl. rewrite app_nil_r. split; [reflexivity|]. discriminate.
Qed.

Lemma newsEffect_no_story (params : SearchParams.t) (r : NewsResponse.t) :
  news_search client (buildNewsQuery (SearchParams.queries params))
              (newsOptions params) = Returns r ->
  NewsResponse.data r = None \/ NewsResponse.data r = Some [] ->
  fst (newsEffect host client params) = [].
Proof.
  intros H Hdata. unfold newsEffect. rewrite H.
  now destruct Hdata as [-> | ->].
Qed.

Lemma postEffect_ok (now : Z) (params : SearchParams.t) (iso : string) :
  toISOString (Date.minusDays now (SearchParams.days params)) = Ok iso ->
  let q := buildPostQuery (SearchParams.queries params)
             (SearchParams.lang params) (SearchParams.raw params) in
  let o := postOptions iso params in
  snd (postEffect client now params) = [PostsSearchRecent q o]
  /\ (forall err, posts_searchRecent client q o = Throws err ->
      postEffect client now params = ([], [postFailed err], [PostsSearchRecent q o]))
  /\ (forall r, posts_searchRecent client q o = Returns r ->
      snd (fst (postEffect client now params))
      = map postsApiError (default [] (PostResponse.errors r))
      /\ fst (fst (postEffect client now params))
         = match PostResponse.data r with
           | Some tweets =>
               Array.sort byEngagement (map (normalizePost (userMapOf r)) tweets)
           | None => []
           end).
Proof.
  intros Hiso q o. unfold postEffect. rewrite Hiso. fold q o.
  destruct (posts_searchRecent client q o) as [r|err]; simpl.
  - split; [reflexivity|]. split; [discriminate|]. intros ? [= <-]. now split.
  - split; [reflexivity|]. split; [|discriminate]. now intros ? [= <-].
Qed.

(** C1. One invocation runs the post-search path exactly when [params.posts]
    is set or step 1 left no story in [news], which is the case when the news
    call throws and when it answers without data or with no story.  If the
    post endpoint was called then the condition holds; if the condition fails
    (at least one story and [posts] unset) the only call made is the news
    call, [posts] is empty and no post-search failure is reported; if the
    condition holds the path runs: it calls the post endpoint once, after the
    news call, or, when the start time cannot be rendered, reports that
    failure. *)
Theorem post_search_iff (now : Z) (params : SearchParams.t) :
  exists out s,
    run host client now params = (Ok out, s)
    /\ ((exists q o, In (PostsSearchRecent q o) (St.calls s)) ->
        SearchParams.posts params = true \/ SearchOutput.news out = [])
    /\ (SearchParams.posts params = false -> SearchOutput.news out <> [] ->
        St.calls s = [NewsSearch (buildNewsQuery (SearchParams.queries params))
                                 (newsOptions params)]
        /\ SearchOutput.posts out = []
        /\ forall err, ~ In (postFailed err) (SearchOutput.errors out))
    /\ (SearchParams.posts params = true \/ SearchOutput.news out = [] ->
        match toISOString (Date.minusDays now (SearchParams.days params)) with
        | Ok startTimeISO =>
            St.calls s
            = [NewsSearch (buildNewsQuery (SearchParams.queries params))
                          (newsOptions params);
               PostsSearchRecent
                 (buildPostQuery (SearchParams.queries params)
                    (SearchParams.lang params) (SearchParams.raw params))
                 (postOptions startTimeISO params)]
        | Raise err => In (postFailed err) (SearchOutput.errors out)
        end)
    /\ (forall err,
          news_search client (buildNewsQuery (SearchParams.queries params))
                      (newsOptions params) = Throws err ->
          SearchOutput.news out = [])
    /\ (forall r,
          news_search client (buildNewsQuery (SearchParams.queries params))
                      (newsOptions params) = Returns r ->
          NewsResponse.data r = None \/ NewsResponse.data r = Some [] ->
          SearchOutput.news out = []).
Proof.
  eexists. eexists. split; [apply run_eq|]. simpl.
  pose proof (newsEffect_errors_form params) as Hform.
  assert (Hzero :
    (forall err,
        news_search client (buildNewsQuery (SearchParams.queries params))
                    (newsOptions params) = Throws err ->
        fst (newsEffect host client params) = [])
    /\ (forall r,
          news_search client (buildNewsQuery (SearchParams.queries params))
                      (newsOptions params) = Returns r ->
          NewsResponse.data r = None \/ NewsResponse.data r = Some [] ->
          fst (newsEffect host client params) = [])).
  { split.
    - intros err H. now rewrite (newsEffect_throws _ _ H).
    - intros r H Hdata. now apply (newsEffect_no_story _ r). }
  destruct (newsEffect host client params) as [news errs]. simpl in *.
  destruct (SearchParams.posts params); simpl.
  - (* posts set *)
    split; [intros _; now left|]. split; [discriminate|]. split; [|exact Hzero].
    intros _. unfold postEffect.
    destruct (toISOString _) as [iso|err]; simpl.
    + now destruct (posts_searchRecent client _ _).
    + apply in_app_iff. right. now left.
  - destruct news as [|r news]; simpl.
    + (* no story *)
      split; [intros _; now right|]. split; [congruence|].
      split; [|exact Hzero].
      intros _. unfold postEffect.
      destruct (toISOString _) as [iso|err]; simpl.
      * now destruct (posts_searchRecent client _ _).
      * apply in_app_iff. right. now left.
    + (* a story and posts unset *)
      split; [|split; [|split; [|exact Hzero]]].
      * intros (q & o & [H|[]]). discriminate H.
      * intros _ _. repeat split. intros err Hin. rewrite app_nil_r in Hin.
        now apply (news_text_not_postFailed _ err (Hform _ Hin)).
      * intros [H|H]; discriminate H.
Qed.

(** C2. An invocation always returns a [SearchOutput].  Every failure is
    found as a text in its [errors]: a thrown news call, a thrown post call,
    every error payload of either response, a failure raised while a story is
    normalized, and a start time that cannot be rendered.  The two steps are
    isolated: when the news call throws, the post endpoint is still called
    and the posts it returns are in the output; the stories normalized in
    step 1 are in the output whatever step 2 does. *)
Theorem searchNews_never_raises (now : Z) (params : SearchParams.t) :
  exists out s,
    run host client now params = (Ok out, s)
    /\ (forall q o err,
          In (NewsSearch q o) (St.calls s) ->
          news_search client q o = Throws err ->
          In (newsFailed err) (SearchOutput.errors out))
    /\ (forall q o err,
          In (PostsSearchRecent q o) (St.calls s) ->
          posts_searchRecent client q o = Throws err ->
          In (postFailed err) (SearchOutput.errors out))
    /\ (forall q o r errs e,
          In (NewsSearch q o) (St.calls s) ->
          news_search client q o = Returns r ->
          NewsResponse.errors r = Some errs -> In e errs ->
          In (newsApiError e) (SearchOutput.errors out))
    /\ (forall q o r errs e,
          In (PostsSearchRecent q o) (St.calls s) ->
          posts_searchRecent client q o = Returns r ->
          PostResponse.errors r = Some errs -> In e errs ->
          In (postsApiError e) (SearchOutput.errors out))
    /\ (forall q o r stories story rest rs err,
          In (NewsSearch q o) (St.calls s) ->
          news_search client q o = Returns r ->
          NewsResponse.data r = Some (stories ++ story :: rest) ->
          Forall2 (fun story r => normalizeStory host story = Ok r) stories rs ->
          normalizeStory host story = Raise err ->
          In (newsFailed err) (SearchOutput.errors out)
          /\ SearchOutput.news out = rs)
    /\ (forall err,
          SearchParams.posts params = true \/ SearchOutput.news out = [] ->
          toISOString (Date.minusDays now (SearchParams.days params)) = Raise err ->
          In (postFailed err) (SearchOutput.errors out))
    /\ (forall q o err iso,
          In (NewsSearch q o) (St.calls s) ->
          news_search client q o = Throws err ->
          toISOString (Date.minusDays now (SearchParams.days params)) = Ok iso ->
          let pq := buildPostQuery (SearchParams.queries params)
                      (SearchParams.lang params) (SearchParams.raw params) in
          let po := postOptions iso params in
          In (PostsSearchRecent pq po) (St.calls s)
          /\ forall r tweets,
               posts_searchRecent client pq po = Returns r ->
               PostResponse.data r = Some tweets ->
               Permutation (SearchOutput.posts out)
                           (map (normalizePost (userMapOf r)) tweets))
    /\ (forall q o r stories rs,
          In (NewsSearch q o) (St.calls s) ->
          news_search client q o = Returns r ->
          NewsResponse.data r = Some stories ->
          Forall2 (fun story r => normalizeStory host story = Ok r) stories rs ->
          SearchOutput.news out = rs).
Proof.
  eexists. eexists. split; [apply run_eq|]. simpl.
  set (ne := newsEffect host client params).
  set (go := SearchParams.posts params || (length (fst ne) =? 0)%nat).
  set (nq := buildNewsQuery (SearchParams.queries params)).
  assert (Hnews : forall q o,
            NewsSearch nq (newsOptions params) = NewsSearch q o
            \/ In (NewsSearch q o) (snd (if go then postEffect client now params
                                         else ([], [], []))) ->
            q = nq /\ o = newsOptions params).
  { intros q o [[= <- <-]|Hin]; [now split|]. exfalso.
    destruct go; [|destruct Hin]. unfold postEffect in Hin.
    destruct (toISOString _); [|destruct Hin].
    destruct (posts_searchRecent client _ _);
      destruct Hin as [Hin|[]]; discriminate Hin. }
  assert (Hpost : forall q o,
            NewsSearch nq (newsOptions params) = PostsSearchRecent q o
            \/ In (PostsSearchRecent q o)
                  (snd (if go then postEffect client now params
                        else ([], [], []))) ->
            go = true
            /\ exists iso,
                toISOString (Date.minusDays now (SearchParams.days params)) = Ok iso
                /\ q = buildPostQuery (SearchParams.queries params)
                         (SearchParams.lang params) (SearchParams.raw params)
                /\ o = postOptions iso params).
  { intros q o [H|Hin]; [discriminate H|].
    destruct go; [|destruct Hin]. split; [reflexivity|].
    now apply postEffect_calls. }
  assert (Hgo : SearchParams.posts params = true \/ fst ne = [] -> go = true).
  { intros [H|H]; subst go; rewrite H; [reflexivity|]. apply orb_true_r. }
  repeat apply conj.
  - (* the news call throws *)
    intros q o err Hin Hthrow. apply Hnews in Hin as [-> ->].
    apply in_app_iff. left. subst ne. rewrite (newsEffect_throws _ _ Hthrow).
    now left.
  - (* the post call throws *)
    intros q o err Hin Hthrow. apply Hpost in Hin as (-> & iso & Hiso & -> & ->).
    apply in_app_iff. right.
    destruct (postEffect_ok now params iso Hiso) as (_ & Hth & _).
    rewrite (Hth _ Hthrow). now left.
  - (* error payloads of the news response *)
    intros q o r errs e Hin Hret Herrs He. apply Hnews in Hin as [-> ->].
    apply in_app_iff. left. subst ne.
    destruct (newsEffect_returns _ _ Hret) as (tail & -> & _).
    apply in_app_iff. left. rewrite Herrs. simpl. now apply in_map.
  - (* error payloads of the post response *)
    intros q o r errs e Hin Hret Herrs He.
    apply Hpost in Hin as (-> & iso & Hiso & -> & ->).
    apply in_app_iff. right.
    destruct (postEffect_ok now params iso Hiso) as (_ & _ & Hr).
    destruct (Hr _ Hret) as [-> _]. rewrite Herrs. simpl. now apply in_map.
  - (* a story whose normalization raises *)
    intros q o r stories story rest rs err Hin Hret Hdata Hok Hraise.
    apply Hnews in Hin as [-> ->]. subst ne.
    destruct (newsEffect_returns _ _ Hret) as (tail & Herr & Hd).
    destruct (Hd _ Hdata) as [Hfst Htail].
    rewrite (normalizeAll_raise _ _ _ _ _ Hok Hraise) in Hfst, Htail.
    simpl in Hfst, Htail. split; [|exact Hfst].
    apply in_app_iff. left. rewrite Herr, Htail. apply in_app_iff. right.
    now left.
  - (* the start time cannot be rendered *)
    intros err Hcond Hraise. rewrite (Hgo Hcond).
    apply in_app_iff. right. unfold postEffect. rewrite Hraise. now left.
  - (* a news failure does not prevent post search *)
    intros q o err iso Hin Hthrow Hiso. apply Hnews in Hin as [-> ->].
    assert (Hgo' : go = true).
    { apply Hgo. right. subst ne. now rewrite (newsEffect_throws _ _ Hthrow). }
    rewrite Hgo'.
    destruct (postEffect_ok now params iso Hiso) as (Hcalls & _ & Hr).
    simpl in Hcalls, Hr. split.
    + right. rewrite Hcalls. now left.
    + intros r tweets Hret Hdata. destruct (Hr _ Hret) as [_ ->].
      rewrite Hdata. apply sort_permutation.
  - (* the stories of step 1 are returned *)
    intros q o r stories rs Hin Hret Hdata Hok.
    apply Hnews in Hin as [-> ->]. subst ne.
    destruct (newsEffect_returns _ _ Hret) as (tail & _ & Hd).
    destruct (Hd _ Hdata) as [-> _]. now rewrite (normalizeAll_ok _ _ Hok).
Qed.

(** C3. The [posts] of the output are in descending order of the score
    2 x likes + 3 x reposts + replies.  When the post endpoint answered with
    data, they are the normalized posts of the response rearranged, and for
    every score the posts having it come in the order of the response. *)
Theorem posts_ranked (now : Z) (params : SearchParams.t) :
  exists out s,
    run host client now params = (Ok out, s)
    /\ (forall p, score p
                  = 2 * PostResult.likes p + 3 * PostResult.reposts p
                    + PostResult.replies p)
    /\ StronglySorted (fun a b => score b <= score a) (SearchOutput.posts out)
    /\ (forall q o r tweets,
          In (PostsSearchRecent q o) (St.calls s) ->
          posts_searchRecent client q o = Returns r ->
          PostResponse.data r = Some tweets ->
          Permutation (SearchOutput.posts out)
                      (map (normalizePost (userMapOf r)) tweets)
          /\ forall v,
               List.filter (fun p => score p =? v) (SearchOutput.posts out)
               = List.filter (fun p => score p =? v)
                   (map (normalizePost (userMapOf r)) tweets)).
Proof.
  eexists. eexists. split; [apply run_eq|]. simpl.
  split; [intros p; unfold score; lia|].
  destruct (SearchParams.posts params || _); simpl.
  2: { split; [constructor|]. intros q o r tweets [H|[]]. discriminate H. }
  split.
  - unfold postEffect.
    destruct (toISOString _) as [iso|err]; simpl; [|constructor].
    destruct (posts_searchRecent client _ _) as [r|err]; simpl; [|constructor].
    destruct (PostResponse.data r); [|constructor].
    apply sort_byEngagement_sorted.
  - intros q o r tweets [H|Hin] Hret Hdata; [discriminate H|].
    apply postEffect_calls in Hin as (iso & Hiso & -> & ->).
    destruct (postEffect_ok now params iso Hiso) as (_ & _ & Hr).
    destruct (Hr _ Hret) as [_ ->]. rewrite Hdata. split.
    + apply sort_permutation.
    + intros v. apply sort_byEngagement_stable.
Qed.

End Orchestrator.

Lemma post_search_iff_witness :
  exists out s,
    run sampleHost sampleClient sampleNow (sampleParams false) = (Ok out, s)
    /\ St.calls s
       = [NewsSearch "gold OR silver market"
            {| NewsOptions.maxResults := 10; NewsOptions.maxAgeHours := 24 |}]
    /\ SearchOutput.posts out = [].
Proof.
  destruct (post_search_iff sampleHost sampleClient sampleNow (sampleParams false))
    as (out & s & Hrun & _ & Hskip & _).
  exists out, s. split; [exact Hrun|].
  assert (Hnews : SearchOutput.news out <> []).
  { vm_compute in Hrun. injection Hrun as <- _. discriminate. }
  destruct (Hskip eq_refl Hnews) as (Hcalls & Hposts & _).
  split; [exact Hcalls | exact Hposts].
Defined.

Lemma searchNews_never_raises_witness :
  exists out s,
    run sampleHost newsDownClient sampleNow (sampleParams false) = (Ok out, s)
    /\ In "News search failed: fetch failed. Falling back to post search."
          (SearchOutput.errors out)
    /\ In "Posts API error: {}" (SearchOutput.errors out).
Proof.
  destruct (searchNews_never_raises sampleHost newsDownClient sampleNow (sampleParams false))
    as (out & s & Hrun & Hthrow & _ & _ & Hapi & _).
  exists out, s. split; [exact Hrun|].
  assert (Hcalls : St.calls s
            = [NewsSearch "gold OR silver market" (newsOptions (sampleParams false));
               PostsSearchRecent
                 "(gold) OR (silver market) -is:retweet -is:reply has:links -is:nullcast lang:en"
                 (postOptions "2023-11-13T22:13:20.000Z" (sampleParams false))]).
  { vm_compute in Hrun. injection Hrun as _ <-. reflexivity. }
  split.
  - apply (Hthrow "gold OR silver market" (newsOptions (sampleParams false))
                  (ErrorObject "Error" "fetch failed")).
    + rewrite Hcalls. left. reflexivity.
    + reflexivity.
  - apply (Hapi "(gold) OR (silver market) -is:retweet -is:reply has:links -is:nullcast lang:en"
                (postOptions "2023-11-13T22:13:20.000Z" (sampleParams false))
                samplePostResponse ["{}"] "{}").
    + rewrite Hcalls. right. left. reflexivity.
    + reflexivity.
    + reflexivity.
    + left. reflexivity.
Defined.

Lemma posts_ranked_witness :
  exists out s,
    run sampleHost sampleClient sampleNow (sampleParams true) = (Ok out, s)
    /\ map PostResult.id (SearchOutput.posts out) = ["t3"; "t1"; "t4"; "t2"]
    /\ List.filter (fun p => score p =? 20) (SearchOutput.posts out)
       = List.filter (fun p => score p =? 20)
           (map (normalizePost (userMapOf samplePostResponse)) sampleTweets).
Proof.
  destruct (posts_ranked sampleHost sampleClient sampleNow (sampleParams true))
    as (out & s & Hrun & _ & _ & Hstable).
  exists out, s. split; [exact Hrun|].
  assert (Hcalls : St.calls s
            = [NewsSearch "gold OR silver market" (newsOptions (sampleParams true));
               PostsSearchRecent
                 "(gold) OR (silver market) -is:retweet -is:reply has:links -is:nullcast lang:en"
                 (postOptions "2023-11-13T22:13:20.000Z" (sampleParams true))]).
  { vm_compute in Hrun. injection Hrun as _ <-. reflexivity. }
  split.
  - vm_compute in Hrun. injection Hrun as <- _. reflexivity.
  - refine (proj2 (Hstable
        "(gold) OR (silver market) -is:retweet -is:reply has:links -is:nullcast lang:en"
        (postOptions "2023-11-13T22:13:20.000Z" (sampleParams true))
        samplePostResponse sampleTweets _ eq_refl eq_refl) 20).
    rewrite Hcalls. right. left. reflexivity.
Defined.


(** * Properties of the result normalizer *)

Section Normalizer.

Lemma buildUserMap_snoc (users : list User.t) (user : User.t) :
  buildUserMap (users ++ [user])
  = <[ User.id user := entryOf user ]> (buildUserMap users).
Proof. unfold buildUserMap. now rewrite fold_left_app. Qed.

Lemma buildUserMap_absent (users : list User.t) (k : string) :
  (forall u, In u users -> User.id u <> k) ->
  buildUserMap users !! k = None.
Proof.
  induction users as [|user users IH] using rev_ind; intros Hk.
  - apply lookup_empty.
  - rewrite buildUserMap_snoc, lookup_insert_ne.
    + apply IH. intros u Hu. apply Hk, in_app_iff. now left.
    + apply Hk, in_app_iff. right. now left.
Qed.

Lemma buildUserMap_present (users : list User.t) (user : User.t) :
  In user users ->
  (forall u, In u users -> User.id u = User.id user -> u = user) ->
  buildUserMap users !! User.id user = Some (entryOf user).
Proof.
  induction users as [|x users IH] using rev_ind; intros Hin Huniq.
  - destruct Hin.
  - rewrite buildUserMap_snoc.
    destruct (decide (User.id x = User.id user)) as [E|NE].
    + rewrite (Huniq x) by (try apply in_app_iff; auto using in_eq).
      apply lookup_insert_eq.
    + rewrite lookup_insert_ne by exact NE.
      apply IH.
      * apply in_app_iff in Hin as [Hin|[->|[]]]; [exact Hin | congruence].
      * intros u Hu. apply Huniq, in_app_iff. now left.
Qed.

(** C7 (as amended).  A story whose timestamp is absent, empty or converts
    to a valid time value always normalizes, every absent property becoming
    the empty string or the empty list; a post always normalizes, absent
    properties becoming the empty string and absent counters 0.  A post whose
    author is not among the included users gets the empty name and handle,
    [verified = false] and the id-only permalink; a post whose author is
    included with a non-empty handle gets the permalink made of the handle and
    the post id. *)
Theorem normalization_fallbacks (host : Host) :
  (forall story,
      validTimestamp host story ->
      exists r,
        normalizeStory host story = Ok r
        /\ NewsResult.id r = default "" (News.restId story)
        /\ NewsResult.headline r = default "" (News.name story)
        /\ NewsResult.summary r = default "" (News.summary story)
        /\ NewsResult.hook r = default "" (News.hook story)
        /\ NewsResult.category r = default "" (News.category story)
        /\ NewsResult.keywords r = default [] (News.keywords story)
        /\ (News.lastUpdatedAtMs story = None -> NewsResult.updatedAt r = ""))
  /\ normalizeStory host emptyStory
     = Ok {| NewsResult.id := ""; NewsResult.headline := "";
             NewsResult.summary := ""; NewsResult.hook := "";
             NewsResult.category := ""; NewsResult.keywords := [];
             NewsResult.updatedAt := "" |}
  /\ (forall users tweet,
        let p := normalizePost (buildUserMap users) tweet in
        PostResult.id p = default "" (Tweet.id tweet)
        /\ PostResult.text p = default "" (Tweet.text tweet)
        /\ PostResult.authorId p = default "" (Tweet.authorId tweet)
        /\ PostResult.createdAt p = default "" (Tweet.createdAt tweet)
        /\ PostResult.likes p
           = default 0 (Tweet.publicMetrics tweet ≫= Metrics.like_count)
        /\ PostResult.reposts p
           = default 0 (Tweet.publicMetrics tweet ≫= Metrics.retweet_count)
        /\ PostResult.replies p
           = default 0 (Tweet.publicMetrics tweet ≫= Metrics.reply_count)
        /\ (Tweet.publicMetrics tweet = None ->
            PostResult.likes p = 0 /\ PostResult.reposts p = 0
            /\ PostResult.replies p = 0)
        /\ ((forall u, In u users -> User.id u <> PostResult.authorId p) ->
            PostResult.authorName p = ""
            /\ PostResult.authorUsername p = ""
            /\ PostResult.verified p = false
            /\ PostResult.url p = "https://x.com/i/status/" +:+ PostResult.id p)
        /\ (forall u,
              In u users ->
              (forall u', In u' users -> User.id u' = User.id u -> u' = u) ->
              User.id u = PostResult.authorId p ->
              User.username u <> "" ->
              PostResult.authorName p = User.name u
              /\ PostResult.authorUsername p = User.username u
              /\ PostResult.verified p = default false (User.verified u)
              /\ PostResult.url p
                 = "https://x.com/" +:+ User.username u +:+ "/status/"
                     +:+ PostResult.id p))
  /\ normalizePost (buildUserMap []) emptyTweet
     = {| PostResult.id := ""; PostResult.text := "";
          PostResult.authorId := ""; PostResult.authorName := "";
          PostResult.authorUsername := ""; PostResult.verified := false;
          PostResult.createdAt := ""; PostResult.likes := 0;
          PostResult.reposts := 0; PostResult.replies := 0;
          PostResult.url := "https://x.com/i/status/" |}.
Proof.
  split; [|split; [reflexivity|split]].
  - intros story Hvalid. unfold validTimestamp in Hvalid. unfold normalizeStory.
    destruct (News.lastUpdatedAtMs story) as [[|c ms]|] eqn:Hts.
    + eexists. split; [reflexivity|]. simpl. repeat split.
    + destruct Hvalid as (t & Ht & Hrange). rewrite Ht. unfold toISOString.
      unfold Date.TimeClip.
      destruct (Z.leb_spec (Z.abs t) Date.maxTimeValue) as [_|Hgt]; [|lia].
      eexists. split; [reflexivity|]. simpl. repeat split. discriminate.
    + eexists. split; [reflexivity|]. simpl. repeat split.
  - intros users tweet p. subst p. simpl.
    repeat (split; [reflexivity|]).
    split; [intros ->; now repeat split|]. split.
    + intros Habs. rewrite (buildUserMap_absent _ _ Habs). now repeat split.
    + intros u Hin Huniq Hid Hname. rewrite <- Hid.
      rewrite (buildUserMap_present _ _ Hin Huniq). simpl.
      repeat (split; [reflexivity|]).
      destruct (User.username u); [congruence | reflexivity].
  - reflexivity.
Qed.

End Normalizer.

Lemma normalization_fallbacks_witness :
  (exists r,
      normalizeStory sampleHost (undatedStory "1699999000000") = Ok r
      /\ NewsResult.summary r = "" /\ NewsResult.keywords r = [])
  /\ PostResult.url (normalizePost (buildUserMap sampleUsers)
                                  (sampleTweet "t1" "u1" 10 0 0))
     = "https://x.com/ann/status/t1"
  /\ PostResult.url (normalizePost (buildUserMap sampleUsers)
                                  (sampleTweet "t2" "u2" 0 5 0))
     = "https://x.com/i/status/t2".
Proof.
  destruct (normalization_fallbacks sampleHost) as (Hstory & _ & Hpost & _).
  split; [|split].
  - destruct (Hstory (undatedStory "1699999000000"))
      as (r & Hr & _ & _ & Hsummary & _ & _ & Hkeywords & _).
    + exists 1699999000000. split; [reflexivity|].
      unfold Date.maxTimeValue. lia.
    + exists r. split; [exact Hr|]. split; [exact Hsummary | exact Hkeywords].
  - pose proof (Hpost sampleUsers (sampleTweet "t1" "u1" 10 0 0)) as H.
    cbv zeta in H. destruct H as (_ & _ & _ & _ & _ & _ & _ & _ & _ & Hknown).
    refine (proj2 (proj2 (proj2
      (Hknown {| User.id := "u1"; User.name := "Ann"; User.username := "ann";
                 User.verified := Some true |} _ _ eq_refl _)))).
    + left. reflexivity.
    + intros u' [<-|[]] _. reflexivity.
    + discriminate.
  - pose proof (Hpost sampleUsers (sampleTweet "t2" "u2" 0 5 0)) as H.
    cbv zeta in H. destruct H as (_ & _ & _ & _ & _ & _ & _ & _ & Habsent & _).
    refine (proj2 (proj2 (proj2 (Habsent _)))).
    intros u [<-|[]]. discriminate.
Defined.

(** The totality C7 states fails on a story whose timestamp is present but
    does not convert to a valid time value: the conversion raises. *)
Lemma normalization_total_counterexample :
  normalizeStory sampleHost (undatedStory "soon")
  = Raise (ErrorObject "RangeError" "Invalid time value")
  /\ normalizeStory sampleHost (undatedStory "99999999999999999")
     = Raise (ErrorObject "RangeError" "Invalid time value")
  /\ ~ (forall host story, exists r, normalizeStory host story = Ok r).
Proof.
  split; [reflexivity|]. split; [reflexivity|].
  intros H. destruct (H sampleHost (undatedStory "soon")) as [r Hr].
  discriminate Hr.
Qed.

(** * Properties of the formatting helpers *)

Section Formatting.

(** C8. For a timestamp that the host reads as the instant [t], not later
    than [now], [timeAgo] renders the floor of the elapsed minutes when less
    than an hour has passed, the floor of the elapsed hours when less than a
    day has passed, and the floor of the elapsed days otherwise. *)
Theorem timeAgo_floor (host : Host) (now : Z) (isoDate : string) (t : Z) :
  isoDate <> "" ->
  Date_parse host isoDate = Some t ->
  t <= now ->
  timeAgo host now isoDate
  = if now - t <? 60 * 60000
    then JS.string_of_int ((now - t) / 60000) +:+ "m ago"
    else if now - t <? 24 * 3600000
         then JS.string_of_int ((now - t) / 3600000) +:+ "h ago"
         else JS.string_of_int ((now - t) / 86400000) +:+ "d ago".
Proof.
  intros Hne Hparse Hpast. unfold timeAgo.
  destruct isoDate as [|c iso]; [congruence|]. rewrite Hparse.
  set (age := now - t).
  assert (Hh : age / 60000 / 60 = age / 3600000)
    by (rewrite Z.div_div by lia; reflexivity).
  assert (Hd : age / 60000 / 60 / 24 = age / 86400000)
    by (rewrite !Z.div_div by lia; reflexivity).
  rewrite Hd, Hh.
  assert (Hm : (age / 60000 <? 60) = (age <? 60 * 60000)).
  { destruct (Z.ltb_spec (age / 60000) 60), (Z.ltb_spec age (60 * 60000));
      try reflexivity; exfalso.
    - assert (60 <= age / 60000) by (apply Z.div_le_lower_bound; lia). lia.
    - assert (age / 60000 < 60) by (apply Z.div_lt_upper_bound; lia). lia. }
  assert (Hq : (age / 3600000 <? 24) = (age <? 24 * 3600000)).
  { destruct (Z.ltb_spec (age / 3600000) 24), (Z.ltb_spec age (24 * 3600000));
      try reflexivity; exfalso.
    - assert (24 <= age / 3600000) by (apply Z.div_le_lower_bound; lia). lia.
    - assert (age / 3600000 < 24) by (apply Z.div_lt_upper_bound; lia). lia. }
  now rewrite Hm, Hq.
Qed.

Lemma timeAgo_floor_witness :
  timeAgo sampleHost (90 * 60000) "1970-01-01T00:00:00.000Z" = "1h ago".
Proof.
  exact (timeAgo_floor sampleHost (90 * 60000) "1970-01-01T00:00:00.000Z" 0
           ltac:(discriminate) eq_refl ltac:(lia)).
Defined.

(** The loop of [wordWrap] and its final push, from any state. *)
Lemma wrap_fold (width : Z) (words : list string) (lines : list string)
    (current : string) :
  (let '(lines', current') := fold_left (wrapStep width) words (lines, current) in
   match current' with
   | EmptyString => lines'
   | String _ _ => lines' ++ [current']
   end)
  = lines ++ greedy_pack width current words.
Proof.
  revert lines current. induction words as [|word rest IH]; intros lines current.
  - simpl. destruct current; [now rewrite app_nil_r | reflexivity].
  - simpl fold_left. simpl greedy_pack. rewrite Z.gtb_ltb.
    destruct (width <? _).
    + rewrite IH, <- app_assoc. reflexivity.
    + rewrite IH. reflexivity.
Qed.

Lemma greedy_pack_break (width : Z) (current word : string) (rest : list string) :
  width < Z.of_nat (String.length current) + Z.of_nat (String.length word) + 1 ->
  greedy_pack width current (word :: rest)
  = current :: greedy_pack width word rest.
Proof.
  intros H. simpl. destruct (Z.ltb_spec width
    (Z.of_nat (String.length current) + Z.of_nat (String.length word) + 1));
    [reflexivity | lia].
Qed.

Lemma greedy_pack_fit (width : Z) (current word : string) (rest : list string) :
  Z.of_nat (String.length current) + Z.of_nat (String.length word) + 1 <= width ->
  greedy_pack width current (word :: rest)
  = greedy_pack width (add_word current word) rest.
Proof.
  intros H. simpl. destruct (Z.ltb_spec width
    (Z.of_nat (String.length current) + Z.of_nat (String.length word) + 1));
    [lia | reflexivity].
Qed.

Lemma wordWrap_eq (text : string) (width : Z) :
  wordWrap text width = greedy_pack width "" (JS.split_whitespace text).
Proof. unfold wordWrap. now rewrite wrap_fold. Qed.

Lemma add_word_length (current word : string) :
  current <> "" ->
  String.length (add_word current word)
  = (String.length current + 1 + String.length word)%nat.
Proof.
  destruct current as [|c current]; [congruence|]. intros _. unfold add_word.
  generalize (String c current). intros a.
  induction a as [|x a IH]; [reflexivity|].
  rewrite append_cons. simpl. now rewrite IH.
Qed.

Lemma greedy_bound (width : Z) (all words : list string) (current : string) :
  Z.of_nat (String.length current) <= width \/ In current all ->
  (forall w, In w words -> In w all) ->
  forall line, In line (greedy_pack width current words) ->
    Z.of_nat (String.length line) <= width \/ In line all.
Proof.
  revert current. induction words as [|word rest IH]; intros current Hcur Hall line.
  - simpl. destruct current; [intros [] | intros [<-|[]]; exact Hcur].
  - simpl. destruct (Z.ltb_spec width
        (Z.of_nat (String.length current) + Z.of_nat (String.length word) + 1))
      as [Hbreak|Hfit].
    + intros [<-|Hin]; [exact Hcur|].
      apply (IH word); auto using in_eq, in_cons.
    + apply IH; [|auto using in_cons].
      destruct current as [|c current]; [right; apply Hall, in_eq|].
      left. rewrite add_word_length by discriminate. lia.
Qed.

Lemma greedy_keeps_long_current (width : Z) (words : list string)
    (current : string) :
  0 <= width ->
  width < Z.of_nat (String.length current) ->
  In current (greedy_pack width current words).
Proof.
  intros Hw Hlong. destruct words as [|word rest]; simpl.
  - destruct current; [simpl in Hlong; lia | now left].
  - destruct (Z.ltb_spec width
        (Z.of_nat (String.length current) + Z.of_nat (String.length word) + 1));
      [now left | lia].
Qed.

Lemma greedy_keeps_long_word (width : Z) (words : list string)
    (current w : string) :
  0 <= width ->
  In w words ->
  width < Z.of_nat (String.length w) ->
  In w (greedy_pack width current words).
Proof.
  intros Hw Hin Hlong. revert current.
  induction words as [|word rest IH]; intros current; [destruct Hin|].
  simpl. destruct Hin as [->|Hin].
  - destruct (Z.ltb_spec width
        (Z.of_nat (String.length current) + Z.of_nat (String.length w) + 1));
      [|lia].
    right. now apply greedy_keeps_long_current.
  - destruct (width <? _); [right|]; now apply IH.
Qed.

(** C9. [wordWrap] packs the words greedily: a word joins the current line
    after one space, and a new line starts exactly when the current line, the
    separator and the word together exceed the width.  For a width that is
    not negative, an output line is longer than the width only if it is one
    word of the text as it stands, and every word longer than the width is
    such a line. *)
Theorem wordWrap_greedy (text : string) (width : Z) :
  wordWrap text width = greedy_pack width "" (JS.split_whitespace text)
  /\ (0 <= width ->
      forall line, In line (wordWrap text width) ->
        Z.of_nat (String.length line) <= width
        \/ In line (JS.split_whitespace text))
  /\ (0 <= width ->
      forall w, In w (JS.split_whitespace text) ->
        width < Z.of_nat (String.length w) ->
        In w (wordWrap text width)).
Proof.
  split; [apply wordWrap_eq|]. rewrite wordWrap_eq. split.
  - intros Hw. apply greedy_bound; [left; simpl; lia | auto].
  - intros Hw w. now apply greedy_keeps_long_word.
Qed.

(** C10. When the first word of the text is at least as long as the width,
    the first line [wordWrap] returns is the empty string; the first word is
    the first piece of the split, or the second when the text starts with
    white space. *)
Theorem wordWrap_leading_empty_line (text : string) (width : Z) (w : string)
    (rest : list string) :
  JS.split_whitespace text = w :: rest
  \/ JS.split_whitespace text = "" :: w :: rest ->
  width <= Z.of_nat (String.length w) ->
  exists lines, wordWrap text width = "" :: lines.
Proof.
  intros Hsplit Hlong. rewrite wordWrap_eq.
  destruct Hsplit as [-> | ->].
  - rewrite greedy_pack_break by (simpl; lia). eauto.
  - destruct (Z.lt_ge_cases width 1) as [Hlt|Hge].
    + rewrite greedy_pack_break by (simpl; lia). eauto.
    + rewrite greedy_pack_fit by (simpl; lia).
      rewrite greedy_pack_break by (simpl; lia). eauto.
Qed.

End Formatting.

Lemma wordWrap_greedy_witness :
  wordWrap "see https://example.org/a-long-path now" 12
  = ["see"; "https://example.org/a-long-path"; "now"]
  /\ (forall line,
        In line (wordWrap "see https://example.org/a-long-path now" 12) ->
        Z.of_nat (String.length line) <= 12
        \/ In line ["see"; "https://example.org/a-long-path"; "now"])
  /\ In "https://example.org/a-long-path"
        (wordWrap "see https://example.org/a-long-path now" 12).
Proof.
  destruct (wordWrap_greedy "see https://example.org/a-long-path now" 12)
    as (Heq & Hbound & Hlong).
  split; [exact Heq|]. split.
  - exact (Hbound ltac:(lia)).
  - apply (Hlong ltac:(lia)).
    + right. left. reflexivity.
    + simpl. lia.
Defined.

Lemma wordWrap_leading_empty_line_witness :
  exists lines, wordWrap "abc def" 3 = "" :: lines.
Proof.
  apply (wordWrap_leading_empty_line "abc def" 3 "abc" ["def"]).
  - left. reflexivity.
  - simpl. lia.
Defined.

(** * Worked examples *)

Example timeAgo_30_minutes :
  timeAgo sampleHost (30 * 60000) "1970-01-01T00:00:00.000Z" = "30m ago".
Proof. reflexivity. Qed.

Example timeAgo_50_hours :
  timeAgo sampleHost (50 * 3600000) "1970-01-01T00:00:00.000Z" = "2d ago".
Proof. reflexivity. Qed.

Example timeAgo_unreadable : timeAgo sampleHost sampleNow "soon" = "NaNd ago".
Proof. reflexivity. Qed.

Example wordWrap_exact_width : wordWrap "abc" 3 = [""; "abc"].
Proof. reflexivity. Qed.

Example wordWrap_two_lines :
  wordWrap "hello world foo bar" 11 = ["hello world"; "foo bar"].
Proof. reflexivity. Qed.

Example split_leading_and_trailing :
  JS.split_whitespace " a  b " = [""; "a"; "b"; ""].
Proof. reflexivity. Qed.

Example run_news_only :
  forall out s,
    run sampleHost sampleClient sampleNow (sampleParams false) = (Ok out, s) ->
    length (SearchOutput.news out) = 2%nat
    /\ SearchOutput.posts out = [] /\ SearchOutput.errors out = [].
Proof. intros out s H. vm_compute in H. injection H as <- _. now repeat split. Qed.

Example run_news_down :
  forall out s,
    run sampleHost newsDownClient sampleNow (sampleParams false) = (Ok out, s) ->
    SearchOutput.news out = []
    /\ map score (SearchOutput.posts out) = [105; 20; 20; 15]
    /\ hd_error (SearchOutput.errors out)
       = Some "News search failed: fetch failed. Falling back to post search.".
Proof. intros out s H. vm_compute in H. injection H as <- _. now repeat split. Qed.

(** A story that cannot be dated stops step 1 after the stories before it;
    with a story already in [news] and [posts] unset, step 2 does not run. *)
Example run_undated_story :
  let client :=
    {| news_search := fun _ _ =>
         Returns {| NewsResponse.data :=
                      Some (sampleStories ++ [undatedStory "soon"]);
                    NewsResponse.errors := None |};
       posts_searchRecent := fun _ _ => Returns samplePostResponse |} in
  forall out s,
    run sampleHost client sampleNow (sampleParams false) = (Ok out, s) ->
    map NewsResult.id (SearchOutput.news out) = ["n1"; "n2"]
    /\ SearchOutput.errors out
       = ["News search failed: Invalid time value. Falling back to post search."]
    /\ length (St.calls s) = 1%nat.
Proof. intros client out s H. vm_compute in H. injection H as <- <-. now repeat split. Qed.

(** * Further properties of [wordWrap] *)

Section WordWrapMore.

Lemma append_empty_right (a : string) : a +:+ "" = a.
Proof.
  induction a as [|c a IH]; [reflexivity|]. now rewrite append_cons, IH.
Qed.

Lemma concat_strings_cons (x : string) (l : list string) :
  concat_strings (x :: l) = x +:+ concat_strings l.
Proof. reflexivity. Qed.

Lemma nonspace_cons (c : ascii) (s : string) :
  nonspace (String c s)
  = if JS.is_space c then nonspace s else String c (nonspace s).
Proof. reflexivity. Qed.

Lemma nonspace_app (a b : string) :
  nonspace (a +:+ b) = nonspace a +:+ nonspace b.
Proof.
  induction a as [|c a IH]; [reflexivity|].
  rewrite append_cons, !nonspace_cons. destruct (JS.is_space c); [exact IH|].
  now rewrite append_cons, IH.
Qed.

(** The pieces of a split hold the code units of the text that are not
    white space. *)
Lemma split_from_nonspace (s : string) (in_run : bool) (piece : string) :
  (in_run = true -> piece = "") ->
  nonspace (concat_strings (JS.split_from in_run piece s))
  = nonspace piece +:+ nonspace s.
Proof.
  revert in_run piece. induction s as [|c s IH]; intros in_run piece Hrun.
  - simpl JS.split_from. rewrite concat_strings_cons. simpl concat_strings.
    change (nonspace "") with "". now rewrite !append_empty_right.
  - simpl JS.split_from. rewrite nonspace_cons.
    destruct (JS.is_space c) eqn:Hc.
    + destruct in_run.
      * rewrite IH by reflexivity. now rewrite (Hrun eq_refl).
      * rewrite concat_strings_cons, nonspace_app, IH by reflexivity.
        reflexivity.
    + rewrite IH by discriminate. rewrite nonspace_app, nonspace_cons, Hc.
      rewrite append_assoc. reflexivity.
Qed.

Lemma add_word_nonspace (current word : string) :
  nonspace (add_word current word) = nonspace current +:+ nonspace word.
Proof.
  destruct current as [|c current]; [reflexivity|]. unfold add_word.
  now rewrite !nonspace_app.
Qed.

Lemma greedy_pack_nonspace (width : Z) (words : list string) (current : string) :
  nonspace (concat_strings (greedy_pack width current words))
  = nonspace current +:+ nonspace (concat_strings words).
Proof.
  revert current. induction words as [|word rest IH]; intros current.
  - simpl greedy_pack. destruct current as [|c current]; [reflexivity|].
    rewrite concat_strings_cons. simpl concat_strings.
    now rewrite !append_empty_right.
  - simpl greedy_pack. destruct (width <? _).
    + rewrite !concat_strings_cons, !nonspace_app, IH. reflexivity.
    + rewrite IH, add_word_nonspace, concat_strings_cons, nonspace_app.
      now rewrite append_assoc.
Qed.

Lemma wordWrap_keeps_text_lemma (text : string) (width : Z) :
  nonspace (concat_strings (greedy_pack width "" (JS.split_whitespace text)))
  = nonspace text.
Proof.
  rewrite greedy_pack_nonspace.
  unfold JS.split_whitespace. now rewrite split_from_nonspace by discriminate.
Qed.

(** X1. [wordWrap] keeps the text: the code units of the lines that are not
    white space are those of the text, in the same order, whatever the
    width. *)
Theorem wordWrap_keeps_text (text : string) (width : Z) :
  nonspace (concat_strings (wordWrap text width)) = nonspace text.
Proof. rewrite wordWrap_eq. apply wordWrap_keeps_text_lemma. Qed.

Lemma inner_nonempty_tail (x : string) (rest : list string) :
  inner_nonempty (x :: rest) -> inner_nonempty rest.
Proof. destruct rest; [intros _; exact I | intros [_ H]; exact H]. Qed.

Lemma split_from_not_nil (s : string) (in_run : bool) (piece : string) :
  JS.split_from in_run piece s <> [].
Proof.
  revert in_run piece. induction s as [|c s IH]; intros in_run piece; simpl.
  - discriminate.
  - destruct (JS.is_space c); [destruct in_run|]; try apply IH. discriminate.
Qed.

Lemma append_not_empty (piece : string) (c : ascii) : piece +:+ String c "" <> "".
Proof. destruct piece; discriminate. Qed.

Lemma split_from_inner (s : string) :
  (forall piece, piece <> "" -> inner_nonempty (JS.split_from false piece s))
  /\ inner_nonempty (JS.split_from true "" s).
Proof.
  induction s as [|c s [IHword IHrun]]; [split; intros; exact I|].
  split.
  - intros piece Hpiece. simpl JS.split_from. destruct (JS.is_space c).
    + pose proof (split_from_not_nil s true "") as Hnil.
      simpl. destruct (JS.split_from true "" s); [congruence|].
      split; [exact Hpiece | exact IHrun].
    + apply IHword, append_not_empty.
  - simpl JS.split_from. destruct (JS.is_space c); [exact IHrun|].
    apply IHword, append_not_empty.
Qed.

Lemma split_from_head (s : string) (piece w : string) (rest : list string) :
  piece <> "" -> JS.split_from false piece s = w :: rest -> w <> "".
Proof.
  revert piece. induction s as [|c s IH]; intros piece Hp; simpl.
  - intros [= <- _]. exact Hp.
  - destruct (JS.is_space c).
    + intros [= <- _]. exact Hp.
    + apply IH, append_not_empty.
Qed.

(** The pieces of a split: the first is empty only when the text is empty
    or starts with white space, and no piece between the first and the last
    is empty. *)
Lemma split_whitespace_shape (text : string) :
  (exists w rest, JS.split_whitespace text = w :: rest
                  /\ w <> "" /\ inner_nonempty (w :: rest))
  \/ (exists rest, JS.split_whitespace text = "" :: rest
                   /\ inner_nonempty rest).
Proof.
  unfold JS.split_whitespace. destruct text as [|c s].
  - right. exists []. split; [reflexivity | exact I].
  - simpl JS.split_from. destruct (JS.is_space c).
    + right. eexists. split; [reflexivity|]. apply split_from_inner.
    + left.
      assert (Hp : "" +:+ String c "" <> "") by discriminate.
      pose proof (proj1 (split_from_inner s) _ Hp) as Hin.
      pose proof (split_from_head s ("" +:+ String c "")) as Hhd.
      destruct (JS.split_from false ("" +:+ String c "") s) as [|w rest] eqn:E.
      * now apply split_from_not_nil in E.
      * exists w, rest. split; [reflexivity|]. split; [|exact Hin].
        now apply (Hhd w rest Hp).
Qed.

Lemma add_word_not_empty (current word : string) :
  current <> "" -> add_word current word <> "".
Proof. destruct current; [congruence | discriminate]. Qed.

Lemma greedy_nonempty (width : Z) (words : list string) (current : string) :
  current <> "" ->
  inner_nonempty words ->
  Forall (fun line => line <> "") (greedy_pack width current words).
Proof.
  revert current. induction words as [|word rest IH]; intros current Hcur Hin.
  - simpl. destruct current; [congruence|]. now repeat constructor.
  - simpl greedy_pack. destruct (width <? _).
    + constructor; [exact Hcur|].
      destruct rest as [|word' rest].
      * simpl. destruct word; now repeat constructor.
      * destruct Hin as [Hword Hin]. now apply IH.
    + apply IH; [now apply add_word_not_empty|].
      now apply inner_nonempty_tail in Hin.
Qed.

(** From the empty accumulator: the lines after the first are not empty, and
    the first is empty only before a word as long as the width or longer. *)
Lemma greedy_from_empty (width : Z) (words : list string) :
  1 <= width ->
  inner_nonempty words ->
  match greedy_pack width "" words with
  | [] => True
  | line :: lines =>
      Forall (fun l => l <> "") lines
      /\ (line = "" ->
          exists w rest, words = w :: rest /\ w <> ""
                         /\ width <= Z.of_nat (String.length w))
  end.
Proof.
  intros Hw Hin. destruct words as [|w rest]; [exact I|].
  destruct w as [|c w].
  - (* an empty piece is the last one *)
    destruct rest as [|w' rest]; [|now destruct Hin].
    rewrite greedy_pack_fit by (simpl; lia). exact I.
  - assert (Hne : String c w <> "") by discriminate.
    pose proof (inner_nonempty_tail _ _ Hin) as Hrest.
    destruct (Z.lt_ge_cases width
                (Z.of_nat (String.length "") + Z.of_nat (String.length (String c w)) + 1))
      as [Hbreak|Hfit].
    + rewrite greedy_pack_break by exact Hbreak. split.
      * now apply greedy_nonempty.
      * intros _. exists (String c w), rest. repeat split; [exact Hne|].
        simpl in Hbreak. simpl. lia.
    + rewrite greedy_pack_fit by lia.
      pose proof (greedy_nonempty width rest (String c w) Hne Hrest) as Hall.
      change (add_word "" (String c w)) with (String c w).
      destruct (greedy_pack width (String c w) rest) as [|line lines]; [exact I|].
      inversion Hall; subst. split; [assumption | congruence].
Qed.

Lemma wordWrap_lines (text : string) (width : Z) :
  1 <= width ->
  match wordWrap text width with
  | [] => True
  | line :: lines =>
      Forall (fun l => l <> "") lines
      /\ (line = "" ->
          exists w rest,
            (JS.split_whitespace text = w :: rest
             \/ JS.split_whitespace text = "" :: w :: rest)
            /\ w <> "" /\ width <= Z.of_nat (String.length w))
  end.
Proof.
  intros Hw. rewrite wordWrap_eq.
  destruct (split_whitespace_shape text)
    as [(w & rest & -> & Hne & Hin) | (rest & -> & Hin)].
  - pose proof (greedy_from_empty width (w :: rest) Hw Hin) as H.
    destruct (greedy_pack width "" (w :: rest)) as [|line lines]; [exact I|].
    destruct H as [Hall Hfirst]. split; [exact Hall|].
    intros Hl. destruct (Hfirst Hl) as (w' & rest' & [= <- <-] & Hw' & Hlen).
    exists w, rest. auto.
  - rewrite greedy_pack_fit by (simpl; lia).
    change (add_word "" "") with "".
    pose proof (greedy_from_empty width rest Hw Hin) as H.
    destruct (greedy_pack width "" rest) as [|line lines]; [exact I|].
    destruct H as [Hall Hfirst]. split; [exact Hall|].
    intros Hl. destruct (Hfirst Hl) as (w' & rest' & -> & Hw' & Hlen).
    exists w', rest'. auto.
Qed.

(** X2. For a width of at least 1, only the first line [wordWrap] returns
    can be empty. *)
Theorem wordWrap_blank_only_first (text : string) (width : Z)
    (line : string) (lines : list string) :
  1 <= width ->
  wordWrap text width = line :: lines ->
  Forall (fun l => l <> "") lines.
Proof.
  intros Hw E. pose proof (wordWrap_lines text width Hw) as H.
  rewrite E in H. apply H.
Qed.

(** X3. For a width of at least 1, the first line is empty only when the
    first word of the text (the first piece of the split, or the second
    after leading white space) is at least as long as the width. *)
Theorem wordWrap_blank_first_only_if (text : string) (width : Z)
    (lines : list string) :
  1 <= width ->
  wordWrap text width = "" :: lines ->
  exists w rest,
    (JS.split_whitespace text = w :: rest
     \/ JS.split_whitespace text = "" :: w :: rest)
    /\ w <> "" /\ width <= Z.of_nat (String.length w).
Proof.
  intros Hw E. pose proof (wordWrap_lines text width Hw) as H.
  rewrite E in H. now apply H.
Qed.

Lemma nonspace_empty (s : string) : nonspace s = "" <-> all_space s = true.
Proof.
  induction s as [|c s IH]; [now split|].
  rewrite nonspace_cons. simpl all_space. destruct (JS.is_space c); simpl.
  - exact IH.
  - split; discriminate.
Qed.

Lemma split_run_all_space (s : string) :
  all_space s = true -> JS.split_from true "" s = [""].
Proof.
  induction s as [|c s IH]; [reflexivity|]. simpl.
  destruct (JS.is_space c); [exact IH | discriminate].
Qed.

Lemma wordWrap_all_space (text : string) (width : Z) :
  1 <= width -> all_space text = true -> wordWrap text width = [].
Proof.
  intros Hw Hall. rewrite wordWrap_eq. unfold JS.split_whitespace.
  destruct text as [|c s].
  { simpl JS.split_from. now rewrite greedy_pack_fit by (simpl; lia). }
  simpl in Hall. simpl JS.split_from.
  destruct (JS.is_space c); [|discriminate].
  rewrite (split_run_all_space s Hall).
  rewrite greedy_pack_fit by (simpl; lia).
  now rewrite greedy_pack_fit by (simpl; lia).
Qed.

(** X4. For a width of at least 1, [wordWrap] returns no line exactly when
    the text has no code unit other than white space; the empty text is
    such a text. *)
Theorem wordWrap_nil_iff (text : string) (width : Z) :
  1 <= width ->
  (wordWrap text width = [] <-> all_space text = true).
Proof.
  intros Hw. split.
  - intros E. apply nonspace_empty.
    rewrite <- (wordWrap_keeps_text_lemma text width), <- wordWrap_eq, E.
    reflexivity.
  - now apply wordWrap_all_space.
Qed.

End WordWrapMore.

(** * Further properties of [timeAgo] and of the query builder *)

Section FormatMore.

Lemma string_of_int_negative (n : Z) :
  n < 0 -> JS.string_of_int n = "-" +:+ JS.string_of_int (- n).
Proof. destruct n as [|p|p]; [lia | lia | reflexivity]. Qed.

(** X5. A timestamp later than [now] is rendered in minutes whatever its
    distance: a minus sign, the elapsed minutes rounded up, and "m ago". *)
Theorem timeAgo_future (host : Host) (now : Z) (isoDate : string) (t : Z) :
  isoDate <> "" ->
  Date_parse host isoDate = Some t ->
  now < t ->
  timeAgo host now isoDate
  = "-" +:+ JS.string_of_int ((t - now + 59999) / 60000) +:+ "m ago".
Proof.
  intros Hne Hparse Hfuture. unfold timeAgo.
  destruct isoDate as [|c iso]; [congruence|]. rewrite Hparse.
  assert (Hneg : (now - t) / 60000 < 0)
    by (apply Z.div_lt_upper_bound; lia).
  destruct (Z.ltb_spec ((now - t) / 60000) 60) as [_|Hge]; [|lia].
  rewrite string_of_int_negative by exact Hneg.
  replace (- ((now - t) / 60000)) with ((t - now + 59999) / 60000);
    [now rewrite append_assoc|].
  pose proof (Z.div_mod (now - t) 60000 ltac:(lia)) as Hdm.
  pose proof (Z.mod_pos_bound (now - t) 60000 ltac:(lia)) as Hmod.
  symmetry. apply Z.div_unique with (r := 59999 - (now - t) mod 60000); lia.
Qed.

Lemma timeAgo_future_witness :
  timeAgo sampleHost (- 61000) "1970-01-01T00:00:00.000Z" = "-2m ago".
Proof.
  exact (timeAgo_future sampleHost (- 61000) "1970-01-01T00:00:00.000Z" 0
           ltac:(discriminate) eq_refl ltac:(lia)).
Defined.

Lemma sum_count_parenthesized (c : ascii) (queries : list string) :
  sum_list (map (JS.count_char c) (map (fun q => "(" +:+ q +:+ ")") queries))
  = (sum_list (map (JS.count_char c) queries)
     + length queries * (JS.count_char c "(" + JS.count_char c ")"))%nat.
Proof.
  induction queries as [|q queries IH]; [reflexivity|].
  cbn [map sum_list sum_list_with length id].
  rewrite IH, !count_char_app. nia.
Qed.

(** X6. For a list that does not have exactly one term, the raw post query
    holds one more "(" and one more ")" per term than the terms do: every
    term is wrapped once and the separator brings no parenthesis. *)
Theorem buildPostQuery_parentheses (queries : list string) (lang : string) :
  length queries <> 1%nat ->
  JS.count_char "(" (buildPostQuery queries lang true)
  = (sum_list (map (JS.count_char "(") queries) + length queries)%nat
  /\ JS.count_char ")" (buildPostQuery queries lang true)
     = (sum_list (map (JS.count_char ")") queries) + length queries)%nat.
Proof.
  intros Hlen. unfold buildPostQuery, combined.
  destruct (Nat.eqb_spec (length queries) 1) as [E|_]; [congruence|].
  rewrite !count_char_join, !sum_count_parenthesized, length_map. simpl. lia.
Qed.

Lemma buildPostQuery_parentheses_witness :
  JS.count_char "(" (buildPostQuery ["f(x)"; "gold"; "a b"] "en" true) = 4%nat.
Proof.
  exact (proj1 (buildPostQuery_parentheses ["f(x)"; "gold"; "a b"] "en"
                  ltac:(discriminate))).
Defined.

End FormatMore.

(** * Further properties of [searchNews] *)

Section OrchestratorMore.

Variable host : Host.
Variable client : Client.

(** X7. An invocation calls the news endpoint exactly once, first, and the
    post endpoint at most once: the log is the news call alone or the news
    call followed by one post call.  Nothing is retried. *)
Theorem searchNews_calls_once (now : Z) (params : SearchParams.t) :
  exists out s,
    run host client now params = (Ok out, s)
    /\ (St.calls s
        = [NewsSearch (buildNewsQuery (SearchParams.queries params))
                      (newsOptions params)]
        \/ exists startTimeISO,
             St.calls s
             = [NewsSearch (buildNewsQuery (SearchParams.queries params))
                           (newsOptions params);
                PostsSearchRecent
                  (buildPostQuery (SearchParams.queries params)
                     (SearchParams.lang params) (SearchParams.raw params))
                  (postOptions startTimeISO params)]).
Proof.
  eexists. eexists. split; [apply (run_eq host client)|]. simpl.
  destruct (SearchParams.posts params || _); [|now left].
  unfold postEffect. destruct (toISOString _) as [iso|err]; [|now left].
  right. exists iso. now destruct (posts_searchRecent client _ _).
Qed.

Lemma normalizeStory_valid (story : News.t) :
  validTimestamp host story -> exists r, normalizeStory host story = Ok r.
Proof.
  unfold validTimestamp, normalizeStory.
  destruct (News.lastUpdatedAtMs story) as [[|c ms]|]; eauto.
  intros (t & -> & Hrange). unfold toISOString, Date.TimeClip.
  destruct (Z.leb_spec (Z.abs t) Date.maxTimeValue); [eauto | lia].
Qed.

Lemma normalizeAll_valid (stories : list News.t) :
  Forall (validTimestamp host) stories ->
  snd (normalizeAll host stories) = None.
Proof.
  induction 1 as [|story stories Hvalid _ IH]; [reflexivity|].
  simpl. destruct (normalizeStory_valid story Hvalid) as [r ->].
  now destruct (normalizeAll host stories).
Qed.

(** X8. An empty result is no error: when the news endpoint answers without
    error payload and with stories whose timestamps are valid, the start time
    can be rendered and the post endpoint answers without error payload, the
    [errors] of the output are empty, however few stories and posts there
    are. *)
Theorem searchNews_no_error (now : Z) (params : SearchParams.t)
    (r : NewsResponse.t) :
  news_search client (buildNewsQuery (SearchParams.queries params))
              (newsOptions params) = Returns r ->
  NewsResponse.errors r = None \/ NewsResponse.errors r = Some [] ->
  (forall stories, NewsResponse.data r = Some stories ->
                   Forall (validTimestamp host) stories) ->
  (exists startTimeISO,
      toISOString (Date.minusDays now (SearchParams.days params))
      = Ok startTimeISO) ->
  (forall q o, exists r',
      posts_searchRecent client q o = Returns r'
      /\ (PostResponse.errors r' = None \/ PostResponse.errors r' = Some [])) ->
  exists out s,
    run host client now params = (Ok out, s)
    /\ SearchOutput.errors out = [].
Proof.
  intros Hnews Herrs Hvalid [iso Hiso] Hposts.
  eexists. eexists. split; [apply (run_eq host client)|]. simpl.
  assert (Hne : snd (newsEffect host client params) = []).
  { unfold newsEffect. rewrite Hnews.
    assert (Hapi : map newsApiError (default [] (NewsResponse.errors r)) = [])
      by (destruct Herrs as [-> | ->]; reflexivity).
    rewrite Hapi. destruct (NewsResponse.data r) as [stories|]; [|reflexivity].
    pose proof (normalizeAll_valid stories (Hvalid stories eq_refl)) as Hall.
    destruct (normalizeAll host stories) as [rs e]. simpl in Hall.
    now subst e. }
  rewrite Hne. simpl.
  destruct (SearchParams.posts params || _); [|reflexivity].
  unfold postEffect. rewrite Hiso.
  destruct (Hposts (buildPostQuery (SearchParams.queries params)
                      (SearchParams.lang params) (SearchParams.raw params))
                   (postOptions iso params)) as (r' & -> & Herrs').
  simpl. now destruct Herrs' as [-> | ->].
Qed.





(** X10. When both calls throw, the output has no story, no post and exactly
    two errors, the news failure and then the post failure, whether
    [params.posts] is set or not. *)
Theorem searchNews_both_fail (now : Z) (params : SearchParams.t)
    (startTimeISO : string) (err err' : Thrown) :
  news_search client (buildNewsQuery (SearchParams.queries params))
              (newsOptions params) = Throws err ->
  toISOString (Date.minusDays now (SearchParams.days params)) = Ok startTimeISO ->
  posts_searchRecent client
    (buildPostQuery (SearchParams.queries params) (SearchParams.lang params)
       (SearchParams.raw params))
    (postOptions startTimeISO params) = Throws err' ->
  fst (run host client now params)
  = Ok {| SearchOutput.query := JS.join " + " (SearchParams.queries params);
          SearchOutput.news := [];
          SearchOutput.posts := [];
          SearchOutput.errors := [newsFailed err; postFailed err'] |}.
Proof.
  intros Hnews Hiso Hposts. rewrite (run_eq host client). simpl.
  unfold newsEffect. rewrite Hnews. simpl. rewrite orb_true_r.
  unfold postEffect. rewrite Hiso, Hposts. reflexivity.
Qed.

End OrchestratorMore.

(** * Further properties of the result normalizer *)

Section NormalizerMore.

(** X11. When several included users have the same id, the last one is the
    one [userMap] keeps. *)
Theorem buildUserMap_last_wins (before after : list User.t) (user : User.t) :
  (forall u, In u after -> User.id u <> User.id user) ->
  buildUserMap (before ++ user :: after) !! User.id user = Some (entryOf user).
Proof.
  induction after as [|x after IH] using rev_ind; intros Hafter.
  - rewrite buildUserMap_snoc. apply lookup_insert_eq.
  - replace (before ++ user :: after ++ [x])
      with ((before ++ user :: after) ++ [x])
      by (now rewrite <- app_assoc).
    rewrite buildUserMap_snoc, lookup_insert_ne.
    + apply IH. intros u Hu. apply Hafter, in_app_iff. now left.
    + apply Hafter, in_app_iff. right. now left.
Qed.

(** X12. A post whose author is included but has an empty handle keeps the
    author's name and verified flag and gets the id-only permalink. *)
Theorem normalizePost_empty_handle (users : list User.t) (tweet : Tweet.t)
    (user : User.t) :
  In user users ->
  (forall u, In u users -> User.id u = User.id user -> u = user) ->
  Tweet.authorId tweet = Some (User.id user) ->
  User.username user = "" ->
  let p := normalizePost (buildUserMap users) tweet in
  PostResult.authorName p = User.name user
  /\ PostResult.authorUsername p = ""
  /\ PostResult.verified p = default false (User.verified user)
  /\ PostResult.url p = "https://x.com/i/status/" +:+ PostResult.id p.
Proof.
  intros Hin Huniq Hauthor Hname p. subst p. unfold normalizePost.
  rewrite Hauthor. simpl.
  rewrite (buildUserMap_present _ _ Hin Huniq). simpl. rewrite Hname.
  now repeat split.
Qed.

(** X21. [userMap] knows exactly the ids of the included users: a lookup
    succeeds if and only if some included user has that id. *)
Theorem buildUserMap_domain (users : list User.t) (k : string) :
  is_Some (buildUserMap users !! k) <-> exists u, In u users /\ User.id u = k.
Proof.
  induction users as [|x users IH] using rev_ind.
  - split; [|intros (u & [] & _)].
    intros [e He]. unfold buildUserMap in He. simpl in He.
    now rewrite lookup_empty in He.
  - rewrite buildUserMap_snoc.
    destruct (decide (User.id x = k)) as [E|NE].
    + subst k. rewrite lookup_insert_eq. split; [|eauto].
      intros _. exists x. split; [apply in_app_iff; right; now left | reflexivity].
    + rewrite lookup_insert_ne by exact NE. rewrite IH. split.
      * intros (u & Hu & Hid). exists u. split; [apply in_app_iff; now left | exact Hid].
      * intros (u & Hu & Hid). apply in_app_iff in Hu as [Hu|[->|[]]];
          [eauto | congruence].
Qed.

End NormalizerMore.

(** * Properties of the command line *)

Section CommandLine.

Lemma digit_value_char (d : N) :
  (d < 10)%N -> digit_value (pretty_N_char d) = Some (Z.of_N d).
Proof.
  intros Hd. destruct d as [|p]; [reflexivity|].
  do 4 (destruct p as [p|p|]; try reflexivity; try (exfalso; lia)).
Qed.

Lemma digit_value_plain (c : ascii) (d : Z) :
  digit_value c = Some d ->
  JS.is_space c = false /\ c <> "-"%char /\ c <> "+"%char.
Proof.
  intros Hd. repeat split.
  - unfold digit_value in Hd. unfold JS.is_space.
    destruct (48 <=? nat_of_ascii c)%nat eqn:Hlo; [|discriminate].
    destruct (nat_of_ascii c <=? 57)%nat eqn:Hhi; [|discriminate].
    apply Nat.leb_le in Hlo, Hhi.
    destruct (Nat.leb_spec 9 (nat_of_ascii c)), (Nat.leb_spec (nat_of_ascii c) 13),
      (Nat.eqb_spec (nat_of_ascii c) 32), (Nat.eqb_spec (nat_of_ascii c) 160);
      simpl; try reflexivity; lia.
  - intros ->. discriminate Hd.
  - intros ->. discriminate Hd.
Qed.

Lemma leading_digits_cons (acc : option Z) (c : ascii) (d : Z) (s : string) :
  digit_value c = Some d ->
  leading_digits acc (String c s)
  = leading_digits (Some (10 * default 0 acc + d)) s.
Proof. intros Hd. simpl. now rewrite Hd. Qed.

(** The digits [pretty_N_go] writes in front of [s] read back as the
    number. *)
Lemma leading_digits_pretty (x : N) :
  (0 < x)%N ->
  (exists k, 0 <= k /\ forall acc s,
      leading_digits acc (pretty_N_go x s)
      = leading_digits (Some (default 0 acc * 10 ^ k + Z.of_N x)) s)
  /\ (forall s, exists c rest d,
        pretty_N_go x s = String c rest /\ digit_value c = Some d).
Proof.
  induction x as [x IH] using (well_founded_induction N.lt_wf_0). intros Hx.
  pose proof (N.div_mod x 10 ltac:(lia)) as Hdm.
  pose proof (N.mod_lt x 10 ltac:(lia)) as Hmod.
  pose proof (digit_value_char _ Hmod) as Hchar.
  destruct (N.eq_dec (x / 10)%N 0%N) as [Hq|Hq].
  - split.
    + exists 1. split; [lia|]. intros acc s.
      rewrite pretty_N_go_step, Hq, pretty_N_go_0 by exact Hx.
      rewrite (leading_digits_cons _ _ _ _ Hchar). f_equal. f_equal. lia.
    + intros s. rewrite pretty_N_go_step, Hq, pretty_N_go_0 by exact Hx. eauto.
  - assert (Hlt : (x / 10 < x)%N) by (apply N.div_lt; lia).
    destruct (IH (x / 10)%N Hlt ltac:(lia)) as [(k & Hk & Hread) Hhead].
    split.
    + exists (k + 1). split; [lia|]. intros acc s.
      rewrite pretty_N_go_step, Hread by exact Hx.
      rewrite (leading_digits_cons _ _ _ _ Hchar). f_equal. f_equal. simpl.
      rewrite Z.pow_add_r by lia. lia.
    + intros s. rewrite pretty_N_go_step by exact Hx. apply Hhead.
Qed.

Lemma parseInt_digits (c : ascii) (s : string) (d : Z) :
  digit_value c = Some d ->
  parseInt (String c s) = leading_digits None (String c s).
Proof.
  intros Hd. destruct (digit_value_plain c d Hd) as (Hsp & Hminus & Hplus).
  unfold parseInt. simpl skip_spaces. rewrite Hsp.
  destruct c as [[] [] [] [] [] [] [] []]; try reflexivity; congruence.
Qed.

Lemma parseInt_positive (p : positive) :
  parseInt (pretty_N_go (N.pos p) "") = Some (Z.pos p)
  /\ leading_digits None (pretty_N_go (N.pos p) "") = Some (Z.pos p).
Proof.
  destruct (leading_digits_pretty (N.pos p) ltac:(lia))
    as [(k & Hk & Hread) Hhead].
  assert (E : leading_digits None (pretty_N_go (N.pos p) "") = Some (Z.pos p)).
  { rewrite Hread. simpl. reflexivity. }
  split; [|exact E].
  destruct (Hhead "") as (c & rest & d & Hs & Hd).
  rewrite Hs in *. now rewrite (parseInt_digits c rest d Hd).
Qed.

(** [parseInt] reads an integer back from its decimal text. *)
Lemma parseInt_string_of_int_lemma (n : Z) :
  parseInt (JS.string_of_int n) = Some n.
Proof.
  destruct n as [|p|p].
  - reflexivity.
  - apply parseInt_positive.
  - change (JS.string_of_int (Z.neg p))
      with ("-" +:+ pretty_N_go (N.pos p) "").
    unfold parseInt. rewrite append_cons, append_nil_l.
    change (skip_spaces (String "-" (pretty_N_go (N.pos p) "")))
      with (String "-" (pretty_N_go (N.pos p) "")).
    cbv iota beta. now rewrite (proj2 (parseInt_positive p)).
Qed.

Lemma clampOption_decimal (hi d n : Z) :
  clampOption hi d (JS.string_of_int n)
  = if n =? 0 then Z.min hi (Z.max 1 d) else Z.min hi (Z.max 1 n).
Proof.
  unfold clampOption. rewrite parseInt_string_of_int_lemma. unfold or_default.
  now destruct (n =? 0).
Qed.

(** X13. Given as decimal texts, [--days n] becomes [n] clamped to 1..7 and
    [--max m] becomes [m] clamped to 1..100, except that 0 is replaced by the
    default before clamping: [--days 0] is 1 and [--max 0] is 10, while a
    negative [--max] is 1. *)
Theorem paramsOf_decimal (opts : Options.t) (n m : Z) :
  Options.days opts = JS.string_of_int n ->
  Options.max opts = JS.string_of_int m ->
  SearchParams.days (paramsOf opts)
  = (if n =? 0 then 1 else Z.min 7 (Z.max 1 n))
  /\ SearchParams.max (paramsOf opts)
     = (if m =? 0 then 10 else Z.min 100 (Z.max 1 m)).
Proof.
  intros Hd Hm. unfold paramsOf. simpl. rewrite Hd, Hm.
  rewrite !clampOption_decimal. now destruct (n =? 0), (m =? 0).
Qed.

(** X14. Whatever texts the options hold, the look-back handed to
    [searchNews] lies in 1..7 and the maximum in 1..100. *)
Theorem paramsOf_clamped (opts : Options.t) :
  1 <= SearchParams.days (paramsOf opts) <= 7
  /\ 1 <= SearchParams.max (paramsOf opts) <= 100.
Proof. unfold paramsOf, clampOption. simpl. lia. Qed.

Lemma action_main (world : World.t) (opts : Options.t) (c : ascii)
    (key : string) :
  World.X_API_KEY world = Some (String c key) ->
  Options.search opts <> [] ->
  exists result,
    fst (run (Terminal.host (World.terminal world))
             (World.createClient world (String c key))
             (World.now world) (paramsOf opts)) = Ok result
    /\ action world opts
       = {| Process.stdout :=
              [formatOutput (World.terminal world) result (Options.json opts)];
            Process.stderr := [];
            Process.exit :=
              if (0 <? length (SearchOutput.errors result))%nat
                 && (length (SearchOutput.news result) =? 0)%nat
                 && (length (SearchOutput.posts result) =? 0)%nat
              then Some 1 else None |}.
Proof.
  intros Hkey Hsearch. unfold action. rewrite Hkey.
  change (SearchParams.queries (paramsOf opts)) with (Options.search opts).
  destruct (Options.search opts) as [|q qs] eqn:Hq; [congruence|].
  simpl length. simpl Nat.eqb. cbv iota.
  rewrite (run_eq (Terminal.host (World.terminal world))
                  (World.createClient world (String c key))).
  simpl fst. eexists. split; reflexivity.
Qed.

(** X15. The command ends with [process.exit(1)] exactly when the API key is
    absent or empty, or no search term was given, or the search returned
    errors and neither story nor post; otherwise it ends without calling
    [process.exit]. *)
Theorem action_exit_code (world : World.t) (opts : Options.t) :
  (Process.exit (action world opts) = Some 1
   \/ Process.exit (action world opts) = None)
  /\ (Process.exit (action world opts) = Some 1 <->
      World.X_API_KEY world = None
      \/ World.X_API_KEY world = Some ""
      \/ Options.search opts = []
      \/ exists key result,
           World.X_API_KEY world = Some key
           /\ fst (run (Terminal.host (World.terminal world))
                       (World.createClient world key)
                       (World.now world) (paramsOf opts)) = Ok result
           /\ SearchOutput.errors result <> []
           /\ SearchOutput.news result = []
           /\ SearchOutput.posts result = []).
Proof.
  destruct (World.X_API_KEY world) as [[|c key]|] eqn:Hkey.
  - unfold action. rewrite Hkey. simpl. split; [now left|]. split; auto.
  - destruct (Options.search opts) as [|q qs] eqn:Hq.
    + unfold action. rewrite Hkey.
      change (SearchParams.queries (paramsOf opts)) with (Options.search opts).
      rewrite Hq. simpl. split; [now left|]. split; auto.
    + destruct (action_main world opts c key Hkey) as (result & Hrun & ->);
        [congruence|].
      simpl Process.exit. split; [|split].
      * destruct (_ && _); auto.
      * intros Hexit. right. right. right.
        exists (String c key), result.
        split; [reflexivity|]. split; [exact Hrun|].
        destruct (SearchOutput.errors result), (SearchOutput.news result),
          (SearchOutput.posts result); simpl in Hexit;
          try discriminate Hexit; now repeat split.
      * intros [H|[H|[H|(key' & result' & Hk & Hr & H1 & H2 & H3)]]];
          try discriminate H.
        injection Hk as <-. rewrite Hrun in Hr. injection Hr as <-.
        rewrite H2, H3.
        destruct (SearchOutput.errors result); [congruence | reflexivity].
  - unfold action. rewrite Hkey. simpl. split; [now left|]. split; auto.
Qed.

(** X16. With an API key and at least one search term, the command prints
    the formatted output of [searchNews], and nothing else, also when it ends
    with code 1; it writes nothing to the error stream, so the handler of a
    failing [searchNews] never runs. *)
Theorem action_prints_output (world : World.t) (opts : Options.t)
    (c : ascii) (key : string) :
  World.X_API_KEY world = Some (String c key) ->
  Options.search opts <> [] ->
  exists result,
    fst (run (Terminal.host (World.terminal world))
             (World.createClient world (String c key))
             (World.now world) (paramsOf opts)) = Ok result
    /\ Process.stdout (action world opts)
       = [formatOutput (World.terminal world) result (Options.json opts)]
    /\ Process.stderr (action world opts) = [].
Proof.
  intros Hkey Hsearch.
  destruct (action_main world opts c key Hkey Hsearch) as (result & Hrun & ->).
  exists result. now repeat split.
Qed.

End CommandLine.

(** * Properties of the presenter *)

Section Presenter.

Lemma itemSections_lookup {A : Type} (format : A -> nat -> string)
    (items : list A) (start i : nat) (item : A) :
  items !! i = Some item ->
  In (format item (start + i)%nat) (itemSections format items start).
Proof.
  revert start i. induction items as [|x rest IH]; intros start i Hi.
  - discriminate.
  - destruct i as [|i]; simpl in Hi.
    + injection Hi as ->. rewrite Nat.add_0_r. now left.
    + simpl. right. destruct rest as [|y rest]; [discriminate|].
      right. replace (start + S i)%nat with (S start + i)%nat by lia.
      now apply IH.
Qed.

Lemma lookup_length_pos {A : Type} (l : list A) (i : nat) (x : A) :
  l !! i = Some x -> (0 <? length l)%nat = true.
Proof. destruct l; [discriminate | reflexivity]. Qed.

(** X17. In text mode every story and every post of the output is
    formatted with its position, counted from 0 in its own list, and is one
    of the sections; every error is a section of its own; and when there is
    neither story nor post, the notice that nothing was found is a
    section. *)
Theorem outputSections_complete (term : Terminal.t) (output : SearchOutput.t) :
  let chalk := Terminal.chalk term in
  let sections := outputSections term output in
  (forall i item,
      SearchOutput.news output !! i = Some item ->
      In (formatNewsItem chalk (Terminal.host term) (Terminal.nowAt term i)
            item i) sections)
  /\ (forall i item,
        SearchOutput.posts output !! i = Some item ->
        In (formatPostItem chalk (Terminal.host term)
              (Terminal.nowAt term (length (SearchOutput.news output) + i))
              item i) sections)
  /\ (forall err,
        In err (SearchOutput.errors output) ->
        In (Chalk.red chalk ("    - " +:+ err)) sections)
  /\ (SearchOutput.news output = [] -> SearchOutput.posts output = [] ->
      In (Chalk.yellow chalk "  No results found.") sections).
Proof.
  intros chalk sections. subst sections. unfold outputSections. fold chalk.
  repeat apply conj.
  - intros i item Hi. rewrite (lookup_length_pos _ _ _ Hi).
    apply in_app_iff. right. apply in_app_iff. left.
    apply in_app_iff. right.
    apply (itemSections_lookup
             (fun item i => formatNewsItem chalk (Terminal.host term)
                              (Terminal.nowAt term i) item i) _ 0 i item Hi).
  - intros i item Hi. rewrite (lookup_length_pos _ _ _ Hi).
    apply in_app_iff. right. apply in_app_iff. right. apply in_app_iff. left.
    apply in_app_iff. right.
    apply (itemSections_lookup
             (fun item i => formatPostItem chalk (Terminal.host term)
                (Terminal.nowAt term (length (SearchOutput.news output) + i))
                item i) _ 0 i item Hi).
  - intros err Herr.
    destruct (SearchOutput.errors output) as [|e es] eqn:He; [destruct Herr|].
    simpl (0 <? _)%nat. cbv iota.
    do 4 (apply in_app_iff; right). apply in_app_iff. left.
    apply in_app_iff. right.
    apply (in_map (fun err => Chalk.red chalk ("    - " +:+ err))). exact Herr.
  - intros -> ->. simpl. do 3 right. right. now left.
Qed.

(** X18. A post whose text starts with a word of 86 code units or more, a
    long link for one, is shown with a line holding only the indentation
    right under its heading. *)
Theorem postItemLines_long_first_word (chalk : Chalk.t) (host : Host)
    (now : Z) (item : PostResult.t) (index : nat) (w : string)
    (rest : list string) :
  JS.split_whitespace (PostResult.text item) = w :: rest ->
  (86 <= String.length w)%nat ->
  exists heading more,
    postItemLines chalk host now item index = heading :: "    " :: more.
Proof.
  intros Hsplit Hlong. unfold postItemLines.
  rewrite wordWrap_eq, Hsplit, greedy_pack_break by (simpl; lia).
  simpl. eauto.
Qed.

(** X19. A post whose text holds nothing but white space is shown in
    exactly three lines: heading, counters and link. *)
Theorem postItemLines_blank_text (chalk : Chalk.t) (host : Host)
    (now : Z) (item : PostResult.t) (index : nat) :
  all_space (PostResult.text item) = true ->
  length (postItemLines chalk host now item index) = 3%nat.
Proof.
  intros Hall. unfold postItemLines.
  now rewrite (wordWrap_all_space _ 86 ltac:(lia) Hall).
Qed.

End Presenter.

(** * The further properties on sample values *)

Lemma wordWrap_blank_only_first_witness :
  Forall (fun l => l <> "") ["abc"; "def"].
Proof.
  exact (wordWrap_blank_only_first "abc def" 3 "" ["abc"; "def"]
           ltac:(lia) eq_refl).
Defined.

Lemma wordWrap_blank_first_only_if_witness :
  exists w rest,
    (JS.split_whitespace "abc def" = w :: rest
     \/ JS.split_whitespace "abc def" = "" :: w :: rest)
    /\ w <> "" /\ 3 <= Z.of_nat (String.length w).
Proof.
  exact (wordWrap_blank_first_only_if "abc def" 3 ["abc"; "def"]
           ltac:(lia) eq_refl).
Defined.

Lemma wordWrap_nil_iff_witness : wordWrap "   " 5 = [].
Proof. exact (proj2 (wordWrap_nil_iff "   " 5 ltac:(lia)) eq_refl). Defined.

Lemma searchNews_no_error_witness :
  exists out s,
    run sampleHost quietClient sampleNow (sampleParams false) = (Ok out, s)
    /\ SearchOutput.errors out = [].
Proof.
  apply (searchNews_no_error sampleHost quietClient sampleNow (sampleParams false)
           {| NewsResponse.data := Some []; NewsResponse.errors := None |}).
  - reflexivity.
  - left. reflexivity.
  - intros stories [= <-]. constructor.
  - exists "2023-11-13T22:13:20.000Z". reflexivity.
  - intros q o. eexists. split; [reflexivity|]. right. reflexivity.
Defined.


Lemma searchNews_both_fail_witness :
  fst (run sampleHost downClient sampleNow (sampleParams false))
  = Ok {| SearchOutput.query := "gold + silver market";
          SearchOutput.news := [];
          SearchOutput.posts := [];
          SearchOutput.errors :=
            ["News search failed: fetch failed. Falling back to post search.";
             "Post search failed: offline"] |}.
Proof.
  exact (searchNews_both_fail sampleHost downClient sampleNow
           (sampleParams false) "2023-11-13T22:13:20.000Z"
           (ErrorObject "Error" "fetch failed") (ThrownString "offline")
           eq_refl eq_refl eq_refl).
Defined.


Lemma buildUserMap_last_wins_witness :
  buildUserMap [sampleUser "u1" "Ann" "ann"; sampleUser "u1" "Bob" "bob";
                sampleUser "u2" "Cy" "cy"] !! "u1"
  = Some (entryOf (sampleUser "u1" "Bob" "bob")).
Proof.
  apply (buildUserMap_last_wins [sampleUser "u1" "Ann" "ann"]
           [sampleUser "u2" "Cy" "cy"] (sampleUser "u1" "Bob" "bob")).
  intros u [<-|[]]. discriminate.
Defined.

Lemma normalizePost_empty_handle_witness :
  PostResult.authorName
    (normalizePost (buildUserMap [sampleUser "u1" "Ann" ""])
                   (sampleTweet "t1" "u1" 1 0 0)) = "Ann"
  /\ PostResult.url
       (normalizePost (buildUserMap [sampleUser "u1" "Ann" ""])
                      (sampleTweet "t1" "u1" 1 0 0))
     = "https://x.com/i/status/t1".
Proof.
  pose proof (normalizePost_empty_handle [sampleUser "u1" "Ann" ""]
                (sampleTweet "t1" "u1" 1 0 0) (sampleUser "u1" "Ann" "")) as H.
  cbv zeta in H. destruct H as (Hname & _ & _ & Hurl).
  - left. reflexivity.
  - intros u [<-|[]] _. reflexivity.
  - reflexivity.
  - reflexivity.
  - split; [exact Hname | exact Hurl].
Defined.

Lemma buildUserMap_domain_witness :
  is_Some (buildUserMap sampleUsers !! "u1").
Proof.
  apply (proj2 (buildUserMap_domain sampleUsers "u1")).
  eexists. split; [left; reflexivity | reflexivity].
Defined.

Lemma paramsOf_decimal_witness :
  SearchParams.days (paramsOf (sampleOptions ["gold"] "3" "0")) = 3
  /\ SearchParams.max (paramsOf (sampleOptions ["gold"] "3" "0")) = 10.
Proof.
  exact (paramsOf_decimal (sampleOptions ["gold"] "3" "0") 3 0 eq_refl eq_refl).
Defined.

Lemma action_exit_code_witness :
  Process.exit (action (sampleWorld None sampleClient)
                       (sampleOptions ["gold"] "1" "10")) = Some 1.
Proof.
  apply (proj2 (proj2 (action_exit_code (sampleWorld None sampleClient)
                         (sampleOptions ["gold"] "1" "10")))).
  left. reflexivity.
Defined.

Lemma action_prints_output_witness :
  exists result,
    fst (run sampleHost downClient sampleNow
             (paramsOf (sampleOptions ["gold"] "1" "10"))) = Ok result
    /\ Process.stdout (action (sampleWorld (Some "key") downClient)
                              (sampleOptions ["gold"] "1" "10"))
       = [formatOutput sampleTerminal result false]
    /\ Process.stderr (action (sampleWorld (Some "key") downClient)
                              (sampleOptions ["gold"] "1" "10")) = [].
Proof.
  apply (action_prints_output (sampleWorld (Some "key") downClient)
           (sampleOptions ["gold"] "1" "10") "k" "ey").
  - reflexivity.
  - discriminate.
Defined.

Lemma outputSections_complete_witness :
  In "    - boom"
     (outputSections sampleTerminal
        {| SearchOutput.query := "gold"; SearchOutput.news := [];
           SearchOutput.posts := []; SearchOutput.errors := ["boom"] |})
  /\ In "  No results found."
       (outputSections sampleTerminal
          {| SearchOutput.query := "gold"; SearchOutput.news := [];
             SearchOutput.posts := []; SearchOutput.errors := ["boom"] |}).
Proof.
  pose proof (outputSections_complete sampleTerminal
                {| SearchOutput.query := "gold"; SearchOutput.news := [];
                   SearchOutput.posts := []; SearchOutput.errors := ["boom"] |})
    as H.
  cbv zeta in H. destruct H as (_ & _ & Herr & Hnone). split.
  - apply (Herr "boom"). left. reflexivity.
  - apply Hnone; reflexivity.
Defined.

Lemma postItemLines_long_first_word_witness :
  exists heading more,
    postItemLines Chalk.plain sampleHost sampleNow
      (samplePost (repeat_string "a" 86 +:+ " end")) 0
    = heading :: "    " :: more.
Proof.
  apply (postItemLines_long_first_word Chalk.plain sampleHost sampleNow
           (samplePost (repeat_string "a" 86 +:+ " end")) 0
           (repeat_string "a" 86) ["end"]).
  - reflexivity.
  - vm_compute. lia.
Defined.

Lemma postItemLines_blank_text_witness :
  length (postItemLines Chalk.plain sampleHost sampleNow (samplePost "  ") 0)
  = 3%nat.
Proof.
  exact (postItemLines_blank_text Chalk.plain sampleHost sampleNow
           (samplePost "  ") 0 eq_refl).
Defined.
